(** * Bell detection: the live detector, the training-time feature
      extraction and the upload endpoint

    A shallow embedding of [Model/Live-detection.py], of the feature
    extraction of [Model/model.py] and of [upload_audio] of [main.py].

    Numbers are modelled as the code has them: raw audio is a byte buffer,
    samples are signed 16-bit integers (in [Z]), amplitudes and
    probabilities are IEEE-754 floats (Rocq's primitive binary64 [float];
    every float32 value the program handles is one of them and compares the
    same way: no float32 lies strictly between the float32 and the binary64
    nearest to 0.9, so [confidence > 0.9] has one meaning).  The three
    external libraries appear as what the program sees of them: librosa's
    [mfcc] is a function argument, the loaded Keras model is a function
    argument that may raise, and PyAudio's stream is the sequence of
    outcomes of its blocking reads, which the stream makes out of what the
    device captures. *)

From Stdlib Require Import ZArith List Floats Uint63 Bool Lia.
From Stdlib.Strings Require Byte.
From Stdlib Require Import Ascii.
From Stdlib Require Import Sorted Permutation.
From stdpp Require Import gmap strings list fin_maps.
Import ListNotations.

Open Scope Z_scope.

Set Warnings "-inexact-float,-abstract-large-number".

(** ** Exceptions and results *)

Inductive exn : Type :=
| KeyboardInterrupt
| ValueError
| IndexError
| OverflowError
| OSError
| IsADirectoryError
| FileNotFoundError.

Inductive result (A : Type) : Type :=
| Ok (a : A)
| Raise (e : exn).

Arguments Ok {A} a.
Arguments Raise {A} e.

(** The error monad: an exception raised by a step skips the rest. *)
#[global] Instance result_ret : MRet result := fun _ a => Ok a.

#[global] Instance result_bind : MBind result := fun _ _ k r =>
  match r with
  | Ok a => k a
  | Raise e => Raise e
  end.

(** Python's [xs[i]] for a non-negative index. *)
Definition index {A : Type} (xs : list A) (i : nat) : result A :=
  match nth_error xs i with
  | Some x => Ok x
  | None => Raise IndexError
  end.

(** ** Floats *)

(** An integer as a float; exact for magnitudes below [2^53]. *)
Definition float_of_Z (z : Z) : float :=
  if z <? 0 then PrimFloat.opp (PrimFloat.of_uint63 (Uint63.of_Z (- z)))
  else PrimFloat.of_uint63 (Uint63.of_Z z).

(** Python's [int(x)] on a float: truncation towards zero; it raises
    [OverflowError] on an infinity and [ValueError] on NaN. *)
Definition py_int (x : float) : result Z :=
  match Prim2SF x with
  | S754_zero _ => Ok 0
  | S754_finite s m e =>
      let mag := if 0 <=? e then Z.pos m * 2 ^ e else Z.pos m / 2 ^ (- e) in
      Ok (if s then - mag else mag)
  | S754_infinity _ => Raise OverflowError
  | S754_nan => Raise ValueError
  end.

(** Python's [n < x] for an integer [n] and a float [x]: the comparison is
    exact, it does not round [n]. *)
Definition py_int_lt_float (n : Z) (x : float) : bool :=
  match Prim2SF x with
  | S754_zero _ => n <? 0
  | S754_finite s m e =>
      (* n < (-1)^s * m * 2^e *)
      if 0 <=? e then n <? (if s then - (Z.pos m * 2 ^ e) else Z.pos m * 2 ^ e)
      else if s then Z.pos m <? (- n) * 2 ^ (- e)
           else n * 2 ^ (- e) <? Z.pos m
  | S754_infinity s => negb s
  | S754_nan => false
  end.

(** ** Audio parameters ([Live-detection.py], lines 10-12) *)

Definition SAMPLE_RATE : Z := 22050.
Definition DURATION : float := 1.0%float.

(** [int(SAMPLE_RATE * DURATION)], the expression of line 12. *)
Definition int_rate_times_duration : result Z :=
  py_int (PrimFloat.mul (float_of_Z SAMPLE_RATE) DURATION).

(** The value that expression gives (computed below). *)
Definition SAMPLES_PER_CHUNK : Z := 22050.

(** ** Raw audio *)

(** One signed 16-bit little-endian sample. *)
Definition int16_of_bytes (lo hi : Byte.byte) : Z :=
  let u := Z.of_N (Byte.to_N lo) + 256 * Z.of_N (Byte.to_N hi) in
  if u <? 32768 then u else u - 65536.

(** [np.frombuffer(raw, dtype=np.int16)]: a buffer whose size is not a
    multiple of the element size raises [ValueError]. *)
Fixpoint frombuffer_int16 (raw : list Byte.byte) : result (list Z) :=
  match raw with
  | [] => Ok []
  | [_] => Raise ValueError
  | lo :: hi :: rest =>
      xs ← frombuffer_int16 rest; Ok (int16_of_bytes lo hi :: xs)
  end.

Definition is_int16 (z : Z) : Prop := -32768 <= z <= 32767.

(** ** Feature matrices *)

Definition matrix : Type := list (list float).

Definition ncols (m : matrix) : nat :=
  match m with
  | [] => 0%nat
  | r :: _ => length r
  end.

Definition shape (m : matrix) : nat * nat := (length m, ncols m).

(** Every row has width [w]. *)
Definition rows_of_width (w : nat) (m : matrix) : Prop :=
  Forall (fun r => length r = w) m.

(** numpy's [m.T] on a two-dimensional array. *)
Definition transpose (m : matrix) : matrix :=
  map (fun j => map (fun r => nth j r 0%float) m) (seq 0 (ncols m)).

(** ** librosa's MFCC, as the program sees it

    [librosa.feature.mfcc(y, sr, n_mfcc, n_fft, hop_length)] is a function
    of the signal and of its four parameters; it returns an array with
    [n_mfcc] rows and one column per frame. *)
Definition mfcc_fn : Type := Z -> nat -> nat -> nat -> list float -> matrix.

(** Frame count of a framing with window [n_fft] and stride [hop] over
    [n >= n_fft] samples, frames left-aligned and never running past the
    end. *)
Definition frame_count (n_fft hop n : nat) : nat :=
  ((n - n_fft) / hop + 1)%nat.

(** librosa frames with [center=True]: the signal is first padded by
    [n_fft / 2] on both sides. *)
Definition centered_frame_count (n_fft hop n : nat) : nat :=
  frame_count n_fft hop (n + 2 * (n_fft / 2))%nat.

(** The shape contract of librosa's [mfcc], for a signal that is not empty
    (and finite, as every signal here is: [mfcc] then raises nothing). *)
Definition mfcc_shape_law (mfcc : mfcc_fn) : Prop :=
  forall sr n_mfcc n_fft hop y,
    (0 < n_mfcc)%nat -> (0 < hop)%nat -> y <> [] ->
    length (mfcc sr n_mfcc n_fft hop y) = n_mfcc /\
    rows_of_width (centered_frame_count n_fft hop (length y))
                  (mfcc sr n_mfcc n_fft hop y).

(** ** Feature extraction *)

(** [audio_data.astype(np.float32) / 32768.0] on one sample. *)
Definition normalize (x : Z) : float :=
  PrimFloat.div (float_of_Z x) 32768.0%float.

(** [process_audio] ([Live-detection.py], lines 14-26). *)
Definition process_audio (mfcc : mfcc_fn) (audio_data : list Z) : matrix :=
  let audio := map normalize audio_data in
  let mfccs := mfcc SAMPLE_RATE 13%nat 2048%nat 512%nat audio in
  transpose mfccs.

(** [np.pad(audio, (0, k))]: [k] zeros at the end. *)
Definition np_pad_end (audio : list float) (k : nat) : list float :=
  audio ++ repeat 0%float k.

(** Python's [xs[:n]]: a negative bound counts from the end. *)
Definition py_slice_to {A : Type} (n : Z) (xs : list A) : list A :=
  if 0 <=? n then firstn (Z.to_nat n) xs
  else firstn (length xs - Z.to_nat (- n)) xs.

(** [extract_features] ([model.py], lines 8-24), from the signal that
    [librosa.load] returned for the file. *)
Definition extract_features (mfcc : mfcc_fn) (audio : list float)
    (duration : float) (sr : Z) : result matrix :=
  let limit := PrimFloat.mul (float_of_Z sr) duration in
  audio' ←
    (if py_int_lt_float (Z.of_nat (length audio)) limit
     then n ← py_int limit;
          Ok (np_pad_end audio (Z.to_nat (n - Z.of_nat (length audio))))
     else n ← py_int limit; Ok (py_slice_to n audio));
  let mfccs := mfcc sr 13%nat 2048%nat 512%nat audio' in
  Ok (transpose mfccs).

(** The call of [prepare_dataset]: the defaults [duration=1.0], [sr=22050]. *)
Definition extract_features_default (mfcc : mfcc_fn) (audio : list float)
  : result matrix :=
  extract_features mfcc audio 1.0%float 22050.

(** ** Audio files

    A mono [.wav] file of 16-bit PCM: its sampling rate and its samples. *)
Record wav_file : Type := mkWav {
  wav_rate : Z;
  wav_samples : list Z
}.

(** The decoder's conversion of a 16-bit sample to a float (libsndfile,
    which [librosa.load] reads with): the sample times [1 / 0x8000]. *)
Definition pcm16_to_float (x : Z) : float :=
  PrimFloat.mul (float_of_Z x) 0x1p-15%float.

(** The resampler that [librosa.load] calls when the file's rate is not the
    requested one: native rate, target rate, signal. *)
Definition resample_fn : Type := Z -> Z -> list float -> list float.

(** [librosa.load(file_path, sr=sr, duration=duration)] on such a file: at
    most [int(duration * native_rate)] frames are read and converted, and
    they are resampled only when the two rates differ. *)
Definition librosa_load (resample : resample_fn) (w : wav_file) (sr : Z)
    (duration : float) : result (list float) :=
  frames ← py_int (PrimFloat.mul duration (float_of_Z (wav_rate w)));
  let y := map pcm16_to_float
               (if 0 <=? frames then firstn (Z.to_nat frames) (wav_samples w)
                else wav_samples w) in
  Ok (if wav_rate w =? sr then y else resample (wav_rate w) sr y).

(** [extract_features(file_path, duration, sr)] ([model.py], lines 8-24)
    from its first line on, for a file. *)
Definition extract_features_file (mfcc : mfcc_fn) (resample : resample_fn)
    (w : wav_file) (duration : float) (sr : Z) : result matrix :=
  audio ← librosa_load resample w sr duration;
  extract_features mfcc audio duration sr.

(** ** The classifier

    The loaded Keras model, as the loop sees it: [model.predict] takes a
    batch of feature matrices and returns one row of class probabilities per
    item, or raises. *)
Definition model_fn : Type := list matrix -> result (list (list float)).

(** [mfccs[np.newaxis, ...]]. *)
Definition add_batch (mfccs : matrix) : list matrix := [mfccs].

(** Lines 44-45: the batch dimension is added and the model is called. *)
Definition predict (model : model_fn) (mfccs : matrix)
  : result (list (list float)) :=
  model (add_batch mfccs).

Definition class_names : list string := ["background"; "bell"]%string.

(** numpy's [argmax] over floats: the first maximum, and the first NaN if
    there is one; an empty array raises [ValueError]. *)
Fixpoint argmax_scan (mp : float) (best i : nat) (xs : list float) : nat :=
  match xs with
  | [] => best
  | x :: rest =>
      if negb (PrimFloat.leb x mp)
      then (if PrimFloat.is_nan x then i else argmax_scan x i (S i) rest)
      else argmax_scan mp best (S i) rest
  end.

Definition np_argmax (xs : list float) : result nat :=
  match xs with
  | [] => Raise ValueError
  | x :: rest =>
      if PrimFloat.is_nan x then Ok 0%nat else Ok (argmax_scan x 0%nat 1%nat rest)
  end.

(** ** The detection loop *)

(** What the program prints. *)
Inductive output : Type :=
| Listening
| BellDetected (confidence : float)
| StoppedMsg.

(** Lines 46-50: [np.argmax] flattens the prediction, the confidence is
    read from its first row, and [and] evaluates the label test first. *)
Definition decision (prediction : list (list float)) : result (list output) :=
  class_idx ← np_argmax (concat prediction);
  row ← index prediction 0%nat;
  confidence ← index row class_idx;
  label ← index class_names class_idx;
  if String.eqb label "bell" && PrimFloat.ltb 0.9%float confidence
  then Ok [BellDetected confidence]
  else Ok [].

(** Lines 43-50, on the chunk that [np.frombuffer] returned. *)
Definition process_and_predict (mfcc : mfcc_fn) (model : model_fn)
    (audio_chunk : list Z) : result (list output) :=
  let mfccs := process_audio mfcc audio_chunk in
  prediction ← predict model mfccs;
  decision prediction.

(** What one call of [stream.read(SAMPLES_PER_CHUNK)] does: it returns a
    buffer, or an exception is raised while it blocks ([KeyboardInterrupt]
    on Ctrl+C, [OSError] from the device). *)
Inductive read_outcome : Type :=
| ReadData (raw : list Byte.byte)
| ReadRaises (e : exn).

(** PyAudio's contract for a blocking read of [n] frames of one 16-bit
    channel: the buffer holds exactly [n] frames. *)
Definition read_contract (n : Z) (r : read_outcome) : Prop :=
  match r with
  | ReadData raw => Z.of_nat (length raw) = 2 * n
  | ReadRaises _ => True
  end.

Inductive phase : Type :=
| Running
| Stopped
| Crashed (e : exn).

(** The program's state: where the loop is, the PyAudio resources, what was
    printed (oldest first), and the chunks handed to [process_audio] so far
    (oldest first; a ghost field, the program keeps no such list). *)
Record state : Type := mkState {
  st_phase : phase;
  stream_active : bool;
  stream_open : bool;
  pa_terminated : bool;
  printed : list output;
  delivered : list (list Z)
}.

(** After [p.open(...)] and the first [print] (lines 29-36). *)
Definition initial : state :=
  mkState Running true true false [Listening] [].

(** An exception leaving the [while] loop: the only handler is
    [except KeyboardInterrupt] (lines 51-55); anything else propagates and
    ends the program. *)
Definition leave_loop (e : exn) (s : state) : state :=
  match e with
  | KeyboardInterrupt =>
      mkState Stopped false false true (printed s ++ [StoppedMsg]) (delivered s)
  | _ =>
      mkState (Crashed e) (stream_active s) (stream_open s) (pa_terminated s)
              (printed s) (delivered s)
  end.

(** One iteration of the [while True] loop (lines 39-50). *)
Definition cycle (mfcc : mfcc_fn) (model : model_fn) (s : state)
    (r : read_outcome) : state :=
  match r with
  | ReadRaises e => leave_loop e s
  | ReadData raw_data =>
      match frombuffer_int16 raw_data with
      | Raise e => leave_loop e s
      | Ok audio_chunk =>
          let s' := mkState (st_phase s) (stream_active s) (stream_open s)
                            (pa_terminated s) (printed s)
                            (delivered s ++ [audio_chunk]) in
          match process_and_predict mfcc model audio_chunk with
          | Raise e => leave_loop e s'
          | Ok lines =>
              mkState (st_phase s') (stream_active s') (stream_open s')
                      (pa_terminated s') (printed s' ++ lines) (delivered s')
          end
      end
  end.

(** The loop runs only while the program is in it. *)
Definition step (mfcc : mfcc_fn) (model : model_fn) (s : state)
    (r : read_outcome) : state :=
  match st_phase s with
  | Running => cycle mfcc model s r
  | _ => s
  end.

(** The program against the outcomes of its successive reads. *)
Definition run (mfcc : mfcc_fn) (model : model_fn) (s : state)
    (reads : list read_outcome) : state :=
  fold_left (step mfcc model) reads s.

Definition released (s : state) : Prop :=
  stream_active s = false /\ stream_open s = false /\ pa_terminated s = true.

(** ** The input stream ([Live-detection.py], lines 28-34 and 40) *)

Inductive sample_format : Type :=
| paInt8
| paInt16
| paInt24
| paInt32
| paFloat32.

(** [pyaudio.get_sample_size]: the bytes of one sample. *)
Definition get_sample_size (f : sample_format) : nat :=
  match f with
  | paInt8 => 1
  | paInt16 => 2
  | paInt24 => 3
  | paInt32 | paFloat32 => 4
  end.

(** The arguments of [p.open] for an input stream. *)
Record Stream : Type := mkStream {
  format : sample_format;
  channels : nat;
  rate : Z;
  frames_per_buffer : Z
}.

(** Lines 29-34. *)
Definition stream : Stream :=
  mkStream paInt16 1 SAMPLE_RATE SAMPLES_PER_CHUNK.

(** One frame holds one sample per channel. *)
Definition bytes_per_frame (s : Stream) : nat :=
  (get_sample_size (format s) * channels s)%nat.

(** What happens on the device's side while the program runs: it captures
    some bytes (as many as its own buffers make it hand over at once), the
    user presses Ctrl+C, or the device fails (an input overflow is an
    [OSError]). *)
Inductive device_event : Type :=
| Captured (data : list Byte.byte)
| CtrlC
| DeviceFails (e : exn).

(** The reads that the pending bytes satisfy at once: each takes the [k]
    oldest bytes. *)
Fixpoint take_reads (fuel k : nat) (pending : list Byte.byte)
  : list read_outcome * list Byte.byte :=
  match fuel with
  | O => ([], pending)
  | S fuel' =>
      if (k <=? length pending)%nat
      then let '(rs, rest) := take_reads fuel' k (skipn k pending) in
           (ReadData (firstn k pending) :: rs, rest)
      else ([], pending)
  end.

(** The outcomes of the program's successive blocking reads of [k] bytes:
    a read returns as soon as [k] bytes are pending and waits otherwise;
    Ctrl+C and a failure of the device raise in the read that waits. *)
Fixpoint reads_of (k : nat) (pending : list Byte.byte)
    (events : list device_event) : list read_outcome :=
  match events with
  | [] => []
  | Captured data :: rest =>
      let '(rs, pending') :=
        take_reads (length (pending ++ data)) k (pending ++ data) in
      rs ++ reads_of k pending' rest
  | CtrlC :: rest => ReadRaises KeyboardInterrupt :: reads_of k pending rest
  | DeviceFails e :: rest => ReadRaises e :: reads_of k pending rest
  end.

(** [s.read(num_frames)], call after call: each returns the bytes of
    [num_frames] frames. *)
Definition stream_reads (s : Stream) (num_frames : Z)
    (events : list device_event) : list read_outcome :=
  reads_of (Z.to_nat num_frames * bytes_per_frame s)%nat [] events.

(** The program from line 29 on, against what the device does: the loop
    reads [SAMPLES_PER_CHUNK] frames from [stream] (line 40). *)
Definition detector (mfcc : mfcc_fn) (model : model_fn)
    (events : list device_event) : state :=
  run mfcc model initial (stream_reads stream SAMPLES_PER_CHUNK events).

(** All that the device captured, in order. *)
Definition captured (events : list device_event) : list Byte.byte :=
  flat_map (fun ev => match ev with
                      | Captured data => data
                      | _ => []
                      end) events.

(** ** The upload endpoint ([main.py], lines 39-49) *)

(** A location in the directory tree: the names going down from the root
    (there are no symbolic links). *)
Definition rpath : Type := list string.

(** The pieces of a path between its ["/"] separators. *)
Fixpoint components_from (cur : string) (s : string) : list string :=
  match s with
  | EmptyString => [cur]
  | String c rest =>
      if Ascii.eqb c "/"%char
      then cur :: components_from EmptyString rest
      else components_from (cur +:+ String c EmptyString) rest
  end.

Definition components (s : string) : list string :=
  components_from EmptyString s.

(** The file system: the server's working directory, and the directories
    and the regular files by location.  The root is a directory; every
    directory can be written to. *)
Record filesystem : Type := mkFs {
  cwd : rpath;
  dirs : gset rpath;
  files : gmap rpath (list Byte.byte)
}.

(** Where [..] leads from a directory: to its parent, and at the root to
    the root. *)
Definition parent (p : rpath) : rpath := removelast p.

(** The longest file name and the longest path, in bytes (Linux). *)
Definition NAME_MAX : nat := 255.
Definition PATH_MAX : nat := 4096.

(** One component of the kernel's walk along a path, from the directory
    [cur]: an empty component and [.] stay, [..] goes up, and a name goes
    down into the directory of that name, which must be there:
    [ENAMETOOLONG] (an [OSError]) for a name of more than [NAME_MAX] bytes,
    [ENOTDIR] ([NotADirectoryError], here its parent class [OSError]) when a
    regular file has the name, [ENOENT] ([FileNotFoundError]) when nothing
    has it. *)
Definition walk_step (fs : filesystem) (cur : rpath) (c : string)
  : result rpath :=
  if String.eqb c EmptyString || String.eqb c "." then Ok cur
  else if String.eqb c ".." then Ok (parent cur)
  else if (NAME_MAX <? String.length c)%nat then Raise OSError
  else if bool_decide (cur ++ [c] ∈ dirs fs) then Ok (cur ++ [c])
  else if bool_decide (is_Some (files fs !! (cur ++ [c]))) then Raise OSError
  else Raise FileNotFoundError.

Fixpoint walk (fs : filesystem) (cur : rpath) (cs : list string)
  : result rpath :=
  match cs with
  | [] => Ok cur
  | c :: rest => next ← walk_step fs cur c; walk fs next rest
  end.

(** The components without the empty ones that separators at the end of
    the path leave. *)
Fixpoint strip_trailing (cs : list string) : list string :=
  match cs with
  | [] => []
  | c :: rest =>
      match strip_trailing rest with
      | [] => if String.eqb c EmptyString then [] else [c]
      | rest' => c :: rest'
      end
  end.

Fixpoint has_nul (s : string) : bool :=
  match s with
  | EmptyString => false
  | String c rest => Ascii.eqb c Ascii.zero || has_nul rest
  end.

(** The file that [open(path, "wb")] opens.  Python refuses a path with a
    NUL byte ([ValueError]); the kernel refuses one of [PATH_MAX] bytes or
    more, walks every component but the last as a directory, from the root
    for an absolute path and from the working directory otherwise, and then
    looks at the last one: [.], [..], a separator after it, or a directory
    of that name give [EISDIR]; any other name is the file, whether it
    exists or is to be created. *)
Definition open_target (fs : filesystem) (path : string) : result rpath :=
  if has_nul path then Raise ValueError
  else if (PATH_MAX <=? String.length path)%nat then Raise OSError
  else
    let cs := strip_trailing (components path) in
    let start := if String.prefix "/" path then [] else cwd fs in
    dir ← walk fs start (removelast cs);
    let name := List.last cs EmptyString in
    if String.eqb name EmptyString
    then (if String.eqb path EmptyString then Raise FileNotFoundError
          else Raise IsADirectoryError)
    else if String.eqb name "." || String.eqb name ".."
    then Raise IsADirectoryError
    else if negb (length cs =? length (components path))%nat
    then Raise IsADirectoryError
    else if (NAME_MAX <? String.length name)%nat then Raise OSError
    else if bool_decide (dir ++ [name] ∈ dirs fs) then Raise IsADirectoryError
    else Ok (dir ++ [name]).

(** [open(path, "wb")]: the file is created, or emptied if it exists. *)
Definition open_wb (fs : filesystem) (path : string) : result filesystem :=
  p ← open_target fs path;
  Ok (mkFs (cwd fs) (dirs fs) (<[p := []]> (files fs))).

(** [shutil.copyfileobj(src, buffer)], [buffer] being the file opened at
    [path]: the bytes are appended to it. *)
Definition copyfileobj (fs : filesystem) (path : string)
    (src : list Byte.byte) : filesystem :=
  match open_target fs path with
  | Ok p =>
      mkFs (cwd fs) (dirs fs)
           (<[p := default [] (files fs !! p) ++ src]> (files fs))
  | Raise _ => fs
  end.

(** The request's file part. *)
Record UploadFile : Type := mkUpload {
  filename : string;
  file : list Byte.byte
}.

Definition UPLOAD_DIR : string := "uploads".

Definition file_location (f : UploadFile) : string :=
  UPLOAD_DIR +:+ "/" +:+ filename f.

(** The JSON object of the response, as its key-value pairs. *)
Definition json : Type := list (string * string).

Definition json_get (k : string) (j : json) : option string :=
  snd <$> List.find (fun kv => String.eqb (fst kv) k) j.

(** [upload_audio] (lines 42-49). *)
Definition upload_audio (fs : filesystem) (f : UploadFile)
  : result (filesystem * json) :=
  fs1 ← open_wb fs (file_location f);
  let fs2 := copyfileobj fs1 (file_location f) (file f) in
  Ok (fs2, [("message", "Audio file uploaded successfully!");
            ("filename", filename f)]%string).

(** Below the uploads directory of the server. *)
Definition inside_uploads (fs : filesystem) (p : rpath) : Prop :=
  exists rest, p = cwd fs ++ UPLOAD_DIR :: rest.

(** ** The training set ([model.py], lines 26-39) *)

(** [s.endswith(suffix)]. *)
Definition endswith (s suffix : string) : bool :=
  (String.length suffix <=? String.length s)%nat
  && String.eqb (String.substring (String.length s - String.length suffix)
                           (String.length suffix) s) suffix.

(** Python's [sorted] on strings: the ascending rearrangement, by code
    points (equal strings keep their order). *)
Fixpoint insert_sorted (x : string) (l : list string) : list string :=
  match l with
  | [] => [x]
  | y :: l' => if String.ltb x y then x :: l else y :: insert_sorted x l'
  end.

Definition sorted (l : list string) : list string :=
  fold_left (fun acc x => insert_sorted x acc) l [].

(** What is found inside a class directory: a file, with what
    [librosa.load(path, sr=22050, duration=1.0)] does on it, or a
    directory. *)
Inductive audio_entry : Type :=
| AudioFile (load : result (list float))
| SubDirectory.

(** What is found inside the data directory: a class directory, with
    what [os.listdir] returns for it, in that order, or a file. *)
Inductive class_entry : Type :=
| ClassDirectory (files : list (string * audio_entry))
| StrayFile.

(** The data directory: what [os.listdir] returns for it, in that order. *)
Definition data_dir : Type := list (string * class_entry).

(** [os.listdir(class_dir)]; on a file it raises [NotADirectoryError],
    here its parent class [OSError]. *)
Definition listdir (e : class_entry) : result (list (string * audio_entry)) :=
  match e with
  | ClassDirectory files => Ok files
  | StrayFile => Raise OSError
  end.

(** The entry at [os.path.join(data_path, name)]. *)
Definition child (name : string) (listing : data_dir) : result class_entry :=
  match List.find (fun c => String.eqb (fst c) name) listing with
  | Some c => Ok (snd c)
  | None => Raise FileNotFoundError
  end.

(** [extract_features(file_path)]: [librosa.load], which raises on a
    directory, then the extraction. *)
Definition extract_features_of (mfcc : mfcc_fn) (e : audio_entry)
  : result matrix :=
  match e with
  | AudioFile load => audio ← load; extract_features_default mfcc audio
  | SubDirectory => Raise IsADirectoryError
  end.

(** Lines 32-38 for one class directory: the features of its [.wav]
    entries, in [listdir] order. *)
Fixpoint class_features (mfcc : mfcc_fn) (files : list (string * audio_entry))
  : result (list matrix) :=
  match files with
  | [] => Ok []
  | (file, e) :: rest =>
      if endswith file ".wav"
      then mfccs ← extract_features_of mfcc e;
           more ← class_features mfcc rest;
           Ok (mfccs :: more)
      else class_features mfcc rest
  end.

(** Lines 30-38: the classes in order, each with its index as label. *)
Fixpoint collect (mfcc : mfcc_fn) (listing : data_dir)
    (label_idx : nat) (names : list string)
  : result (list matrix * list nat) :=
  match names with
  | [] => Ok ([], [])
  | class_name :: rest =>
      class_dir ← child class_name listing;
      files ← listdir class_dir;
      feats ← class_features mfcc files;
      more ← collect mfcc listing (S label_idx) rest;
      Ok (feats ++ fst more, repeat label_idx (length feats) ++ snd more)
  end.

Definition shape_eqb (a b : nat * nat) : bool :=
  Nat.eqb (fst a) (fst b) && Nat.eqb (snd a) (snd b).

(** [np.array(features)] on a list of two-dimensional arrays: they are
    stacked when they all have one shape, and [ValueError] is raised when
    they do not. *)
Definition np_array (features : list matrix) : result (list matrix) :=
  match features with
  | [] => Ok []
  | m0 :: _ =>
      if forallb (fun m => shape_eqb (shape m) (shape m0)) features
      then Ok features
      else Raise ValueError
  end.

(** [prepare_dataset] ([model.py], lines 26-39). *)
Definition prepare_dataset (mfcc : mfcc_fn) (data_path : data_dir)
  : result (list matrix * list nat * list string) :=
  let class_names := sorted (map fst data_path) in
  collected ← collect mfcc data_path 0%nat class_names;
  X ← np_array (fst collected);
  Ok (X, snd collected, class_names).

(** ** The network ([model.py], lines 40-60) *)

Inductive activation : Type := relu | softmax.

Inductive layer : Type :=
| Input (dims : list nat)
| Reshape (target_shape : list nat)
| Conv2D_same (filters : nat) (kernel_size : nat * nat) (act : activation)
| MaxPooling2D (pool_size : nat * nat)
| Flatten
| Dense (units : nat) (act : activation)
| Dropout (rate : float).

(** The layers of [create_model], in order. *)
Definition create_model (input_shape : nat * nat) (num_classes : nat)
  : list layer :=
  [ Input [fst input_shape; snd input_shape];
    Reshape [fst input_shape; snd input_shape; 1%nat];
    Conv2D_same 16 (3, 3)%nat relu;
    MaxPooling2D (2, 2)%nat;
    Conv2D_same 32 (3, 3)%nat relu;
    MaxPooling2D (2, 2)%nat;
    Flatten;
    Dense 32 relu;
    Dropout 0.3%float;
    Dense num_classes softmax ].

(** Keras's shape of one item after a layer, from the shape before it.
    [Input] fixes the shape; [Reshape] keeps the number of elements; a
    convolution with [padding='same'] and stride 1 keeps height and width;
    pooling with the default stride (the pool size) and no padding divides
    them, and needs at least one full window; [Dense] acts on the last
    axis.  A layer of no filters or no units is refused. *)
Definition layer_output (l : layer) (s : list nat) : result (list nat) :=
  match l, s with
  | Input dims, _ => Ok dims
  | Reshape target, _ =>
      if Nat.eqb (fold_right Nat.mul 1%nat target) (fold_right Nat.mul 1%nat s)
      then Ok target else Raise ValueError
  | Conv2D_same filters _ _, [h; w; _] =>
      if (0 <? filters)%nat then Ok [h; w; filters] else Raise ValueError
  | MaxPooling2D (ph, pw), [h; w; c] =>
      if (ph <=? h)%nat && (pw <=? w)%nat && (0 <? ph)%nat && (0 <? pw)%nat
      then Ok [(h / ph)%nat; (w / pw)%nat; c] else Raise ValueError
  | Flatten, _ => Ok [fold_right Nat.mul 1%nat s]
  | Dense units _, _ :: _ =>
      if (0 <? units)%nat then Ok (removelast s ++ [units])
      else Raise ValueError
  | Dropout _, _ => Ok s
  | _, _ => Raise ValueError
  end.

Fixpoint model_output (layers : list layer) (s : list nat)
  : result (list nat) :=
  match layers with
  | [] => Ok s
  | l :: rest => s' ← layer_output l s; model_output rest s'
  end.

(** The network called on an item of shape [s].  The [Input] layer declares
    a shape and checks none (a [Sequential] model of Keras 3 compares the
    rank of what it is called on with the declared one, and a feature
    matrix always has rank 2): what flows through the layers is the item as
    it is, and each layer refuses what it cannot take. *)
Definition call_output (layers : list layer) (s : list nat)
  : result (list nat) :=
  match layers with
  | Input _ :: rest => model_output rest s
  | _ => model_output layers s
  end.

(** The dimensions of a feature matrix. *)
Definition item_dims (m : matrix) : list nat := [length m; ncols m].

Fixpoint call_all (layers : list layer) (batch : list matrix) : result unit :=
  match batch with
  | [] => Ok tt
  | m :: rest => _ ← call_output layers (item_dims m); call_all layers rest
  end.

(** [predict] of a Keras network of these layers, [forward] being the
    arithmetic of its weights: it raises if the layers refuse an item of
    the batch and returns the scores otherwise. *)
Definition keras_predict (layers : list layer)
    (forward : list matrix -> list (list float)) : model_fn :=
  fun batch => _ ← call_all layers batch; Ok (forward batch).

(** Lines 62-66 of the training script: the data set, then the network for
    the shape of its first item and the number of its classes. *)
Definition build_from_dataset (mfcc : mfcc_fn) (data_path : data_dir)
  : result (list layer) :=
  data ← prepare_dataset mfcc data_path;
  x0 ← index (fst (fst data)) 0%nat;
  Ok (create_model (shape x0) (length (snd data))).

(** ** The rest of [main.py] *)

(** [os.makedirs(path, exist_ok=True)] for a path of one name, as
    [UPLOAD_DIR] is (lines 14 and 40): the directory is made in the working
    directory unless it is there; a file of that name raises
    [FileExistsError], here its parent class [OSError]. *)
Definition makedirs_exist_ok (fs : filesystem) (path : string)
  : result filesystem :=
  let p := cwd fs ++ [path] in
  if bool_decide (is_Some (files fs !! p)) then Raise OSError
  else Ok (mkFs (cwd fs) ({[ p ]} ∪ dirs fs) (files fs)).

(** [read_root] (lines 5-7). *)
Definition read_root : json :=
  [("message", "Bus Bell Detection System backend is running!")]%string.

(** The first [upload_audio] (lines 16-21). *)
Definition upload_audio_first (fs : filesystem) (f : UploadFile)
  : result (filesystem * json) :=
  fs1 ← open_wb fs (file_location f);
  let fs2 := copyfileobj fs1 (file_location f) (file f) in
  Ok (fs2, [("status", "success"); ("filename", filename f)]%string).

Inductive http_method : Type := GET | POST.

(** The three functions that the module decorates. *)
Inductive endpoint : Type :=
| read_root_endpoint
| upload_audio_first_endpoint
| upload_audio_endpoint.

Record route : Type := mkRoute {
  route_method : http_method;
  route_path : string;
  route_endpoint : endpoint
}.

(** The [CORSMiddleware] arguments of lines 31-37. *)
Record cors : Type := mkCors {
  allow_origins : list string;
  allow_credentials : bool;
  allow_methods : list string;
  allow_headers : list string
}.

(** A [FastAPI] object, as far as the module configures it: the path
    operations in the order of their registration, and the middleware. *)
Record FastAPI : Type := mkApp {
  routes : list route;
  middleware : list cors
}.

(** The module-level statements that act on the name [app]. *)
Inductive statement : Type :=
| NewApp
| Decorate (m : http_method) (path : string) (e : endpoint)
| AddMiddleware (c : cors).

(** [app = FastAPI()] binds a fresh object; a decorator and
    [add_middleware] act on the object bound at that point. *)
Definition execute (app : FastAPI) (st : statement) : FastAPI :=
  match st with
  | NewApp => mkApp [] []
  | Decorate m path e =>
      mkApp (routes app ++ [mkRoute m path e]) (middleware app)
  | AddMiddleware c => mkApp (routes app) (c :: middleware app)
  end.

(** [main.py] from top to bottom. *)
Definition main_module : list statement :=
  [ NewApp;
    Decorate GET "/" read_root_endpoint;
    Decorate POST "/upload-audio/" upload_audio_first_endpoint;
    NewApp;
    AddMiddleware (mkCors ["*"%string] true ["*"%string] ["*"%string]);
    Decorate POST "/upload-audio/" upload_audio_endpoint ].

(** The object bound to [app] once the statements have run: the one a
    server started on [main:app] serves. *)
Definition app_after (module : list statement) : FastAPI :=
  fold_left execute module (mkApp [] []).

Definition http_method_eqb (a b : http_method) : bool :=
  match a, b with
  | GET, GET | POST, POST => true
  | _, _ => false
  end.

(** The path operation that answers a request: the first one registered
    for its method and path. *)
Definition dispatch (app : FastAPI) (m : http_method) (path : string)
  : option endpoint :=
  route_endpoint <$>
    List.find (fun r => http_method_eqb (route_method r) m
                        && String.eqb (route_path r) path)
              (routes app).

(** A file name of one plain component: no separator, no NUL byte, at most
    [NAME_MAX] bytes, and not empty, [.] or [..]. *)
Definition plain_name (name : string) : Prop :=
  components name = [name] /\ name <> EmptyString /\
  name <> "."%string /\ name <> ".."%string /\
  has_nul name = false /\ (String.length name <= NAME_MAX)%nat.

(** ** Definitions used in the statements *)

(** What [extract_features] hands to [mfcc] with its defaults: the signal
    padded with zeros at the end, or cut, to [SAMPLES_PER_CHUNK] samples. *)
Definition pad_or_trim (audio : list float) : list float :=
  if Z.of_nat (length audio) <? SAMPLES_PER_CHUNK
  then np_pad_end audio (Z.to_nat (SAMPLES_PER_CHUNK - Z.of_nat (length audio)))
  else firstn (Z.to_nat SAMPLES_PER_CHUNK) audio.

(** A chunk of the expected length, of 16-bit samples. *)
Definition full_chunk (chunk : list Z) : Prop :=
  Z.of_nat (length chunk) = SAMPLES_PER_CHUNK /\ Forall is_int16 chunk.

(** The resources as they are while the stream is in use. *)
Definition in_use (s : state) : Prop :=
  stream_active s = true /\ stream_open s = true /\ pa_terminated s = false.

(** The resources follow the phase: in use while the loop runs and after
    an exception ended it, released after Ctrl+C. *)
Definition resources_ok (s : state) : Prop :=
  match st_phase s with
  | Running | Crashed _ => in_use s
  | Stopped => released s
  end.

(** [m], at position [i], is the first largest entry of [xs]: no entry is
    above it (so none is NaN), and every entry before position [i] is
    below it. *)
Definition first_largest (xs : list float) (i : nat) (m : float) : Prop :=
  nth_error xs i = Some m /\
  (forall x, In x xs -> PrimFloat.leb x m = true) /\
  (forall j x, (j < i)%nat -> nth_error xs j = Some x ->
               PrimFloat.ltb x m = true).

(** Equality of two floats as data. *)
Definition SF_eqb (a b : spec_float) : bool :=
  match a, b with
  | S754_zero s, S754_zero s' => Bool.eqb s s'
  | S754_infinity s, S754_infinity s' => Bool.eqb s s'
  | S754_nan, S754_nan => true
  | S754_finite s m e, S754_finite s' m' e' =>
      Bool.eqb s s' && Pos.eqb m m' && Z.eqb e e'
  | _, _ => false
  end.

(** The bytes that a read returned. *)
Definition read_bytes (r : read_outcome) : list Byte.byte :=
  match r with
  | ReadData raw => raw
  | ReadRaises _ => []
  end.

(** A read of [k] bytes returned [k] bytes, or raised. *)
Definition read_of_size (k : nat) (r : read_outcome) : Prop :=
  match r with
  | ReadData raw => length raw = k
  | ReadRaises _ => True
  end.

(** The amplitude test of one sample, as a boolean. *)
Definition amplitude_ok (x : Z) : bool :=
  PrimFloat.leb (-1)%float (normalize x) && PrimFloat.ltb (normalize x) 1%float.

(** The integers [lo], [lo + 1], ... ([n] of them). *)
Fixpoint Z_range (lo : Z) (n : nat) : list Z :=
  match n with
  | O => []
  | S n' => lo :: Z_range (lo + 1) n'
  end.

(** ** Sample inputs

    Stand-ins for the three external parties, and small concrete inputs. *)

(** An [mfcc] with librosa's shape, which reads the signal: coefficient [k]
    of frame [t] is the sample at [t * hop + k] (zero past the end). *)
Definition probe_mfcc : mfcc_fn :=
  fun _ n_mfcc n_fft hop y =>
    map (fun k =>
           map (fun t => nth (t * hop + k) y 0%float)
               (seq 0 (centered_frame_count n_fft hop (length y))))
        (seq 0 n_mfcc).

(** One second of a sawtooth, as 16-bit samples. *)
Definition sawtooth_chunk : list Z :=
  map (fun k => k mod 2000 - 1000) (Z_range 0 (Z.to_nat SAMPLES_PER_CHUNK)).

(** One second at a constant positive level. *)
Definition loud_chunk : list Z := repeat 1000 (Z.to_nat SAMPLES_PER_CHUNK).

Definition short_chunk : list Z := [100; -200; 300; -400].

Definition byte_of_Z (z : Z) : Byte.byte :=
  default Byte.x00 (Byte.of_N (Z.to_N (z mod 256))).

(** numpy's [tobytes] on 16-bit samples: little-endian two's complement. *)
Definition tobytes (xs : list Z) : list Byte.byte :=
  flat_map (fun x => [byte_of_Z x; byte_of_Z ((x mod 65536) / 256)]) xs.

(** A classifier that always answers background 0.1, bell 0.95. *)
Definition stub_model : model_fn := fun _ => Ok [[0.1; 0.95]%float].

(** A classifier that rejects a matrix whose first coefficient is negative
    and otherwise answers like [stub_model]. *)
Definition picky_model : model_fn := fun batch =>
  match batch with
  | [(c :: _) :: _] =>
      if PrimFloat.ltb c 0%float then Raise ValueError
      else Ok [[0.1; 0.95]%float]
  | _ => Raise ValueError
  end.

(** 44 frames of 12 coefficients: one coefficient short. *)
Definition narrow_matrix : matrix := repeat (repeat 0%float 12) 44.

(** The arithmetic of a network that always answers background 0.1,
    bell 0.95. *)
Definition stub_forward : list matrix -> list (list float) :=
  fun _ => [[0.1; 0.95]%float].

(** What a device hands over in packets of 1024 frames: the bytes cut into
    pieces of [n]. *)
Fixpoint packets (fuel n : nat) (bytes : list Byte.byte)
  : list device_event :=
  match fuel, bytes with
  | O, _ | _, [] => []
  | S fuel', _ => Captured (firstn n bytes) :: packets fuel' n (skipn n bytes)
  end.

(** A server directory with the uploads directory and one source file, and
    an upload whose name climbs out of the uploads directory. *)
Definition old_bytes : list Byte.byte := [Byte.x6f; Byte.x6c; Byte.x64].
Definition new_bytes : list Byte.byte := [Byte.x6e; Byte.x65; Byte.x77].

Definition server_fs : filesystem :=
  mkFs ["srv"; "app"]%string
       {[ ["srv"]; ["srv"; "app"]; ["srv"; "app"; "uploads"] ]}%string
       {[ ["srv"; "app"; "main.py"]%string := old_bytes;
          ["srv"; "app"; "uploads"; "bell_01.wav"]%string := old_bytes ]}.

Definition traversal_upload : UploadFile := mkUpload "../main.py" new_bytes.

(** * Properties *)

(** ** The error monad *)

Lemma bind_Ok {A B : Type} (r : result A) (k : A -> result B) (b : B) :
  r ≫= k = Ok b <-> exists a, r = Ok a /\ k a = Ok b.
Proof.
  destruct r as [a|e]; cbn.
  - split; [intros H; exists a; auto | intros (a' & Ha & Hk); congruence].
  - split; [discriminate | intros (a' & Ha & _); discriminate].
Qed.

Lemma bind_Raise {A B : Type} (r : result A) (k : A -> result B) (e : exn) :
  r ≫= k = Raise e <->
  r = Raise e \/ exists a, r = Ok a /\ k a = Raise e.
Proof.
  destruct r as [a|e']; cbn.
  - split; [intros H; right; exists a; auto |].
    intros [H | (a' & Ha & Hk)]; congruence.
  - split; [intros H; left; congruence |].
    intros [H | (a' & Ha & _)]; congruence.
Qed.

(** ** Parameters and floats *)

(** Line 12 computes 22050. *)
Lemma SAMPLES_PER_CHUNK_value : int_rate_times_duration = Ok SAMPLES_PER_CHUNK.
Proof. vm_compute. reflexivity. Qed.

Lemma limit_default :
  Prim2SF (PrimFloat.mul (float_of_Z 22050) 1.0%float)
  = S754_finite false 6061057848115200 (-38).
Proof. vm_compute. reflexivity. Qed.

Lemma py_int_limit_default :
  py_int (PrimFloat.mul (float_of_Z 22050) 1.0%float) = Ok SAMPLES_PER_CHUNK.
Proof. vm_compute. reflexivity. Qed.

(** [len(audio) < sr * duration] with the defaults is [len(audio) < 22050]. *)
Lemma lt_limit_default (n : Z) :
  py_int_lt_float n (PrimFloat.mul (float_of_Z 22050) 1.0%float)
  = (n <? SAMPLES_PER_CHUNK).
Proof.
  unfold py_int_lt_float, SAMPLES_PER_CHUNK. rewrite limit_default.
  change (0 <=? -38) with false. cbv iota.
  change (2 ^ (- -38)) with 274877906944.
  destruct (Z.ltb_spec (n * 274877906944) 6061057848115200),
           (Z.ltb_spec n 22050); try reflexivity; lia.
Qed.

Lemma Z_range_length (n : nat) (lo : Z) : length (Z_range lo n) = n.
Proof.
  revert lo. induction n as [|n IH]; intros lo; cbn; [| rewrite IH];
    reflexivity.
Qed.

Lemma Z_range_In (n : nat) (lo x : Z) :
  lo <= x < lo + Z.of_nat n -> In x (Z_range lo n).
Proof.
  revert lo. induction n as [|n IH]; intros lo H; [lia |].
  cbn [Z_range]. destruct (Z.eq_dec lo x) as [E|E]; [now left | right].
  apply IH. lia.
Qed.

Lemma amplitude_ok_all :
  forallb amplitude_ok (Z_range (-32768) (Z.to_nat 65536)) = true.
Proof. vm_compute. reflexivity. Qed.

(** Every 16-bit sample is normalised to an amplitude in [-1, 1). *)
Lemma normalize_range (x : Z) :
  is_int16 x ->
  PrimFloat.leb (-1)%float (normalize x) = true /\
  PrimFloat.ltb (normalize x) 1%float = true.
Proof.
  intros Hx. apply andb_prop.
  change (amplitude_ok x = true).
  pose proof amplitude_ok_all as Hall.
  rewrite forallb_forall in Hall. apply Hall.
  apply Z_range_In. unfold is_int16 in Hx. lia.
Qed.

Lemma normalize_range_witness :
  is_int16 (-32768) /\
  PrimFloat.leb (-1)%float (normalize (-32768)) = true /\
  PrimFloat.ltb (normalize (-32768)) 1%float = true.
Proof.
  assert (H : is_int16 (-32768)) by (unfold is_int16; lia).
  split; [exact H | exact (normalize_range (-32768) H)].
Defined.

(** ** Raw buffers *)

Lemma int16_of_bytes_range (lo hi : Byte.byte) : is_int16 (int16_of_bytes lo hi).
Proof.
  unfold is_int16, int16_of_bytes.
  pose proof (Byte.to_N_bounded lo) as Hlo.
  pose proof (Byte.to_N_bounded hi) as Hhi.
  destruct (Z.ltb_spec
              (Z.of_N (Byte.to_N lo) + 256 * Z.of_N (Byte.to_N hi)) 32768);
    lia.
Qed.

(** Induction on buffers two bytes at a time. *)
Lemma buffer_ind (P : list Byte.byte -> Prop) :
  P [] -> (forall b, P [b]) ->
  (forall lo hi rest, P rest -> P (lo :: hi :: rest)) ->
  forall raw, P raw.
Proof.
  intros Hnil Hone Hstep.
  fix IH 1. intros [|lo [|hi rest]].
  - exact Hnil.
  - apply Hone.
  - apply Hstep, IH.
Qed.

Lemma frombuffer_int16_spec (raw : list Byte.byte) (xs : list Z) :
  frombuffer_int16 raw = Ok xs ->
  length raw = (2 * length xs)%nat /\ Forall is_int16 xs.
Proof.
  revert xs. induction raw as [| b | lo hi rest IH] using buffer_ind;
    intros xs H.
  - inversion H. split; [reflexivity | constructor].
  - discriminate.
  - cbn [frombuffer_int16] in H.
    apply bind_Ok in H as (ys & Hys & H). inversion H; subst xs.
    destruct (IH ys Hys) as [Hl Hr]. split.
    + cbn [length]. lia.
    + constructor; [apply int16_of_bytes_range | exact Hr].
Qed.

(** A buffer of whole samples always decodes. *)
Lemma frombuffer_int16_even (raw : list Byte.byte) (n : nat) :
  length raw = (2 * n)%nat -> exists xs, frombuffer_int16 raw = Ok xs.
Proof.
  revert n. induction raw as [| b | lo hi rest IH] using buffer_ind;
    intros n H.
  - exists []. reflexivity.
  - cbn in H. lia.
  - destruct (IH (n - 1)%nat) as [ys Hys]; [cbn [length] in H; lia |].
    exists (int16_of_bytes lo hi :: ys).
    cbn [frombuffer_int16]. now rewrite Hys.
Qed.

Lemma byte_of_Z_value (z : Z) : Z.of_N (Byte.to_N (byte_of_Z z)) = z mod 256.
Proof.
  unfold byte_of_Z.
  assert (Hm : 0 <= z mod 256 < 256) by (apply Z.mod_pos_bound; lia).
  destruct (Byte.of_N (Z.to_N (z mod 256))) as [b|] eqn:E;
    unfold default, from_option, id.
  - apply Byte.to_of_N in E. rewrite E. lia.
  - apply Byte.of_N_None_iff in E. lia.
Qed.

Lemma int16_of_bytes_tobytes (x : Z) :
  is_int16 x ->
  int16_of_bytes (byte_of_Z x) (byte_of_Z ((x mod 65536) / 256)) = x.
Proof.
  unfold is_int16, int16_of_bytes. intros Hx.
  rewrite !byte_of_Z_value.
  destruct (Z.ltb_spec (x mod 256 + 256 * ((x mod 65536) / 256 mod 256)) 32768)
    as [H|H]; revert H; Z.div_mod_to_equations; lia.
Qed.

(** Decoding what [tobytes] encoded gives the samples back. *)
Lemma frombuffer_tobytes (xs : list Z) :
  Forall is_int16 xs -> frombuffer_int16 (tobytes xs) = Ok xs.
Proof.
  induction 1 as [|x xs Hx _ IH]; [reflexivity |].
  cbn [tobytes flat_map app frombuffer_int16].
  fold (tobytes xs). rewrite IH. cbn.
  now rewrite int16_of_bytes_tobytes.
Qed.

Lemma tobytes_length (xs : list Z) : length (tobytes xs) = (2 * length xs)%nat.
Proof.
  induction xs as [|x xs IH]; [reflexivity |].
  cbn [tobytes flat_map app length]. fold (tobytes xs). lia.
Qed.

(** ** Shapes *)

Lemma transpose_length (m : matrix) : length (transpose m) = ncols m.
Proof. unfold transpose. now rewrite length_map, length_seq. Qed.

Lemma transpose_rows (m : matrix) : rows_of_width (length m) (transpose m).
Proof.
  unfold rows_of_width, transpose. apply List.Forall_forall. intros r Hr.
  apply in_map_iff in Hr as (j & <- & _). now rewrite length_map.
Qed.

Lemma ncols_of_width (w : nat) (m : matrix) :
  rows_of_width w m -> m <> [] -> ncols m = w.
Proof.
  intros H Hm. destruct m as [|r m]; [congruence |].
  now inversion H.
Qed.

Lemma shape_of_width (w : nat) (m : matrix) :
  rows_of_width w m -> m <> [] -> shape m = (length m, w).
Proof. intros H Hm. unfold shape. now rewrite (ncols_of_width w). Qed.

Lemma centered_frames_default (n : nat) :
  centered_frame_count 2048 512 n = (n / 512 + 1)%nat.
Proof.
  unfold centered_frame_count, frame_count.
  change (2 * (2048 / 2))%nat with 2048%nat.
  now rewrite Nat.add_sub.
Qed.

Lemma frames_of_full_chunk (n : nat) :
  Z.of_nat n = SAMPLES_PER_CHUNK -> centered_frame_count 2048 512 n = 44%nat.
Proof.
  intros H.
  replace n with (Z.to_nat 22050) by (unfold SAMPLES_PER_CHUNK in H; lia).
  vm_compute. reflexivity.
Qed.

(** The frame count the left-aligned formula gives for a full chunk. *)
Remark left_aligned_frames : frame_count 2048 512 (Z.to_nat 22050) = 40%nat.
Proof. vm_compute. reflexivity. Qed.

Section Mfcc.

Variable mfcc : mfcc_fn.
Hypothesis mfcc_shape : mfcc_shape_law mfcc.

(** The shape of [mfcc(...).T] for a signal [y]. *)
Lemma mfcc_T_shape (sr : Z) (y : list float) :
  y <> [] ->
  let fm := transpose (mfcc sr 13%nat 2048%nat 512%nat y) in
  length fm = (length y / 512 + 1)%nat /\ rows_of_width 13 fm /\
  shape fm = ((length y / 512 + 1)%nat, 13%nat).
Proof.
  intros Hy fm. subst fm.
  destruct (mfcc_shape sr 13%nat 2048%nat 512%nat y) as [Hrows Hcols];
    [lia | lia | exact Hy |].
  rewrite centered_frames_default in Hcols.
  set (m := mfcc sr 13%nat 2048%nat 512%nat y) in *.
  assert (Hm : m <> []) by (intros E; rewrite E in Hrows; discriminate).
  assert (Hlen : length (transpose m) = (length y / 512 + 1)%nat).
  { rewrite transpose_length. now apply ncols_of_width. }
  assert (Hw : rows_of_width 13 (transpose m)).
  { rewrite <- Hrows. apply transpose_rows. }
  repeat split; try assumption.
  rewrite (shape_of_width 13), Hlen; auto.
  intros E. rewrite E in Hlen. cbn in Hlen. lia.
Qed.

(** [process_audio] applies no padding: its frame count follows the
    length of the chunk it is given. *)
Lemma process_audio_shape (audio_chunk : list Z) :
  audio_chunk <> [] ->
  shape (process_audio mfcc audio_chunk)
  = ((length audio_chunk / 512 + 1)%nat, 13%nat).
Proof.
  intros Hne. unfold process_audio.
  destruct (mfcc_T_shape SAMPLE_RATE (map normalize audio_chunk))
    as (_ & _ & Hs).
  - destruct audio_chunk; [congruence | discriminate].
  - now rewrite length_map in Hs.
Qed.

End Mfcc.

(** ** Training-time extraction *)

Lemma extract_features_default_eq (mfcc : mfcc_fn) (audio : list float) :
  extract_features_default mfcc audio
  = Ok (transpose (mfcc 22050 13%nat 2048%nat 512%nat (pad_or_trim audio))).
Proof.
  unfold extract_features_default, extract_features, pad_or_trim.
  rewrite lt_limit_default, py_int_limit_default.
  destruct (Z.of_nat (length audio) <? SAMPLES_PER_CHUNK); reflexivity.
Qed.

Lemma pad_or_trim_length (audio : list float) :
  Z.of_nat (length (pad_or_trim audio)) = SAMPLES_PER_CHUNK.
Proof.
  unfold pad_or_trim, np_pad_end, SAMPLES_PER_CHUNK.
  destruct (Z.ltb_spec (Z.of_nat (length audio)) 22050).
  - rewrite length_app, repeat_length. lia.
  - rewrite length_firstn. lia.
Qed.

Lemma pad_or_trim_exact (audio : list float) :
  Z.of_nat (length audio) = SAMPLES_PER_CHUNK -> pad_or_trim audio = audio.
Proof.
  intros H. unfold pad_or_trim. rewrite H, Z.ltb_irrefl.
  apply firstn_all2. lia.
Qed.

Lemma full_length_nonempty {A : Type} (xs : list A) :
  Z.of_nat (length xs) = SAMPLES_PER_CHUNK -> xs <> [].
Proof. intros H E. rewrite E in H. discriminate. Qed.

(** Whatever the signal, training-time extraction feeds [mfcc] 22050
    samples and gets 44 frames of 13 coefficients. *)
Lemma training_shape (mfcc : mfcc_fn) (audio : list float) :
  mfcc_shape_law mfcc ->
  shape (transpose (mfcc 22050 13%nat 2048%nat 512%nat (pad_or_trim audio)))
  = (44%nat, 13%nat).
Proof.
  intros Hlaw.
  destruct (mfcc_T_shape mfcc Hlaw 22050 (pad_or_trim audio)) as (_ & _ & Hs).
  { apply (full_length_nonempty _ (pad_or_trim_length audio)). }
  rewrite Hs. f_equal.
  rewrite <- centered_frames_default.
  apply frames_of_full_chunk, pad_or_trim_length.
Qed.

(** ** The sample inputs *)

Lemma probe_mfcc_shape : mfcc_shape_law probe_mfcc.
Proof.
  intros sr n_mfcc n_fft hop y _ _ _. unfold probe_mfcc. split.
  - now rewrite length_map, length_seq.
  - apply List.Forall_forall. intros r Hr.
    apply in_map_iff in Hr as (k & <- & _).
    now rewrite length_map, length_seq.
Qed.

Lemma sawtooth_chunk_length :
  Z.of_nat (length sawtooth_chunk) = SAMPLES_PER_CHUNK.
Proof.
  unfold sawtooth_chunk. rewrite length_map, Z_range_length.
  unfold SAMPLES_PER_CHUNK. lia.
Qed.

Lemma sawtooth_is_int16 : Forall is_int16 sawtooth_chunk.
Proof.
  unfold sawtooth_chunk. apply List.Forall_forall. intros x Hx.
  apply in_map_iff in Hx as (k & <- & _). unfold is_int16.
  pose proof (Z.mod_pos_bound k 2000). lia.
Qed.

Lemma loud_chunk_length : Z.of_nat (length loud_chunk) = SAMPLES_PER_CHUNK.
Proof.
  unfold loud_chunk. rewrite repeat_length. unfold SAMPLES_PER_CHUNK. lia.
Qed.

Lemma loud_is_int16 : Forall is_int16 loud_chunk.
Proof.
  unfold loud_chunk. apply List.Forall_forall. intros x Hx.
  apply repeat_spec in Hx. subst x. unfold is_int16. lia.
Qed.

Lemma frombuffer_sawtooth :
  frombuffer_int16 (tobytes sawtooth_chunk) = Ok sawtooth_chunk.
Proof. apply frombuffer_tobytes, sawtooth_is_int16. Qed.

Lemma frombuffer_loud : frombuffer_int16 (tobytes loud_chunk) = Ok loud_chunk.
Proof. apply frombuffer_tobytes, loud_is_int16. Qed.

Lemma sawtooth_rejected :
  process_and_predict probe_mfcc picky_model sawtooth_chunk = Raise ValueError.
Proof. vm_compute. reflexivity. Qed.

(** ** Live and training-time extraction *)

Lemma SF_eqb_eq (a b : spec_float) : SF_eqb a b = true -> a = b.
Proof.
  destruct a as [s|s| |s m e], b as [s'|s'| |s' m' e']; cbn;
    try discriminate; try reflexivity.
  - intros H. apply Bool.eqb_prop in H. congruence.
  - intros H. apply Bool.eqb_prop in H. congruence.
  - intros H. apply andb_prop in H as [H He]. apply andb_prop in H as [Hs Hm].
    apply Bool.eqb_prop in Hs. apply Pos.eqb_eq in Hm. apply Z.eqb_eq in He.
    congruence.
Qed.

Lemma decodings_agree_all :
  forallb (fun x => SF_eqb (Prim2SF (pcm16_to_float x)) (Prim2SF (normalize x)))
          (Z_range (-32768) (Z.to_nat 65536)) = true.
Proof. vm_compute. reflexivity. Qed.

(** The decoder of the training files and the live detector make the same
    float of every 16-bit sample: the product by [2^-15] and the quotient
    by [32768.0] are both exact. *)
Lemma pcm16_to_float_normalize (x : Z) :
  is_int16 x -> pcm16_to_float x = normalize x.
Proof.
  intros Hx. apply Prim2SF_inj, SF_eqb_eq.
  pose proof decodings_agree_all as Hall.
  rewrite forallb_forall in Hall.
  apply (Hall x). apply Z_range_In. unfold is_int16 in Hx. lia.
Qed.

Lemma frames_default :
  py_int (PrimFloat.mul 1.0%float (float_of_Z SAMPLE_RATE)) = Ok 22050.
Proof. vm_compute. reflexivity. Qed.

(** A file of one second at 22050 Hz is loaded whole, sample by sample,
    and not resampled. *)
Lemma librosa_load_full_chunk (resample : resample_fn) (chunk : list Z) :
  Z.of_nat (length chunk) = SAMPLES_PER_CHUNK ->
  Forall is_int16 chunk ->
  librosa_load resample (mkWav SAMPLE_RATE chunk) 22050 1.0%float
  = Ok (map normalize chunk).
Proof.
  intros Hlen Hint. unfold librosa_load. cbn [wav_rate wav_samples].
  rewrite frames_default. cbn [mbind result_bind].
  change (0 <=? 22050) with true. change (SAMPLE_RATE =? 22050) with true.
  cbv iota.
  rewrite firstn_all2 by (unfold SAMPLES_PER_CHUNK in Hlen; lia).
  f_equal. apply map_ext_in. intros x Hx.
  apply pcm16_to_float_normalize.
  rewrite List.Forall_forall in Hint. now apply Hint.
Qed.

(** C2. On every chunk of the expected sample count, the live
    [process_audio] returns exactly the feature matrix that the
    training-time [extract_features] (defaults [duration=1.0], [sr=22050])
    returns for the same audio, that is for a 16-bit file at 22050 Hz that
    holds the chunk's samples: [librosa.load] decodes every sample to the
    float that the detector computes from it, reads the whole second and
    does not resample; no padding or trimming applies; the MFCC parameters
    and the transposition are the same. *)
Theorem process_audio_matches_training (mfcc : mfcc_fn)
    (resample : resample_fn) (audio_chunk : list Z) :
  Z.of_nat (length audio_chunk) = SAMPLES_PER_CHUNK ->
  Forall is_int16 audio_chunk ->
  extract_features_file mfcc resample (mkWav SAMPLE_RATE audio_chunk)
                        1.0%float 22050
  = Ok (process_audio mfcc audio_chunk).
Proof.
  intros Hlen Hint. unfold extract_features_file.
  rewrite (librosa_load_full_chunk resample audio_chunk Hlen Hint).
  cbn [mbind result_bind].
  change (extract_features mfcc (map normalize audio_chunk) 1.0%float 22050)
    with (extract_features_default mfcc (map normalize audio_chunk)).
  rewrite extract_features_default_eq.
  rewrite pad_or_trim_exact by (now rewrite length_map).
  reflexivity.
Qed.

Lemma process_audio_matches_training_witness :
  Z.of_nat (length sawtooth_chunk) = SAMPLES_PER_CHUNK /\
  Forall is_int16 sawtooth_chunk /\
  extract_features_file probe_mfcc (fun _ _ y => y)
                        (mkWav SAMPLE_RATE sawtooth_chunk) 1.0%float 22050
  = Ok (process_audio probe_mfcc sawtooth_chunk).
Proof.
  split; [exact sawtooth_chunk_length |].
  split; [exact sawtooth_is_int16 |].
  exact (process_audio_matches_training probe_mfcc (fun _ _ y => y)
           sawtooth_chunk sawtooth_chunk_length sawtooth_is_int16).
Defined.

(** C5, as the code has it. The training-time [extract_features] enforces
    the exact duration before the spectral transform: a signal shorter than
    22050 samples is padded with zeros at the end to 22050, a longer one is
    cut to its first 22050 samples, so every signal yields a 44 x 13 matrix.
    The live [process_audio] pads and cuts nothing: a chunk of [n > 0]
    samples yields [n / 512 + 1] frames of 13 coefficients. *)
Theorem extract_features_pads_and_trims (mfcc : mfcc_fn) (audio : list float) :
  mfcc_shape_law mfcc ->
  (exists audio' : list float,
      extract_features_default mfcc audio
      = Ok (transpose (mfcc 22050 13%nat 2048%nat 512%nat audio')) /\
      Z.of_nat (length audio') = SAMPLES_PER_CHUNK /\
      (Z.of_nat (length audio) < SAMPLES_PER_CHUNK ->
       audio' = audio ++ repeat 0%float
                  (Z.to_nat (SAMPLES_PER_CHUNK - Z.of_nat (length audio)))) /\
      (SAMPLES_PER_CHUNK <= Z.of_nat (length audio) ->
       audio' = firstn (Z.to_nat SAMPLES_PER_CHUNK) audio) /\
      shape (transpose (mfcc 22050 13%nat 2048%nat 512%nat audio'))
      = (44%nat, 13%nat)) /\
  (forall audio_chunk : list Z,
      audio_chunk <> [] ->
      shape (process_audio mfcc audio_chunk)
      = ((length audio_chunk / 512 + 1)%nat, 13%nat)).
Proof.
  intros Hlaw. split.
  - exists (pad_or_trim audio).
    split; [apply extract_features_default_eq |].
    split; [apply pad_or_trim_length |].
    split; [| split].
    + intros H. unfold pad_or_trim, np_pad_end.
      apply Z.ltb_lt in H. now rewrite H.
    + intros H. unfold pad_or_trim.
      apply Z.ltb_ge in H. now rewrite H.
    + now apply training_shape.
  - intros audio_chunk Hne. now apply process_audio_shape.
Qed.

Lemma extract_features_pads_and_trims_witness :
  mfcc_shape_law probe_mfcc /\
  (exists audio' : list float,
      extract_features_default probe_mfcc [0.5; 0.25]%float
      = Ok (transpose (probe_mfcc 22050 13%nat 2048%nat 512%nat audio')) /\
      Z.of_nat (length audio') = SAMPLES_PER_CHUNK /\
      (Z.of_nat (length [0.5; 0.25]%float) < SAMPLES_PER_CHUNK ->
       audio' = [0.5; 0.25]%float ++ repeat 0%float
                  (Z.to_nat (SAMPLES_PER_CHUNK
                             - Z.of_nat (length [0.5; 0.25]%float)))) /\
      (SAMPLES_PER_CHUNK <= Z.of_nat (length [0.5; 0.25]%float) ->
       audio' = firstn (Z.to_nat SAMPLES_PER_CHUNK) [0.5; 0.25]%float) /\
      shape (transpose (probe_mfcc 22050 13%nat 2048%nat 512%nat audio'))
      = (44%nat, 13%nat)) /\
  (forall audio_chunk : list Z,
      audio_chunk <> [] ->
      shape (process_audio probe_mfcc audio_chunk)
      = ((length audio_chunk / 512 + 1)%nat, 13%nat)).
Proof.
  split.
  - exact probe_mfcc_shape.
  - exact (extract_features_pads_and_trims probe_mfcc [0.5; 0.25]%float
             probe_mfcc_shape).
Defined.

(** C5, a chunk that is too short: [process_audio] does not pad it, and the
    matrix has one frame where a full chunk, or the same chunk padded to
    full length, gives 44. *)
Lemma process_audio_does_not_pad :
  Z.of_nat (length short_chunk) < SAMPLES_PER_CHUNK /\
  shape (process_audio probe_mfcc short_chunk) = (1%nat, 13%nat) /\
  shape (process_audio probe_mfcc sawtooth_chunk) = (44%nat, 13%nat) /\
  shape (process_audio probe_mfcc
           (short_chunk ++ repeat 0 (Z.to_nat SAMPLES_PER_CHUNK - 4)))
  = (44%nat, 13%nat).
Proof.
  split; [vm_compute; reflexivity |].
  split; [vm_compute; reflexivity |].
  split; vm_compute; reflexivity.
Qed.

(** C7. On every chunk of exactly 22050 samples, [process_audio] returns a
    matrix whose frame count is the framing formula
    [(samples - n_fft) / hop_length + 1] applied to the signal padded by
    [n_fft / 2] on both sides (librosa's centred framing), which is 44,
    with 13 coefficients per frame; it is the shape of every matrix that
    the training-time [extract_features] returns. *)
Theorem full_chunk_shape (mfcc : mfcc_fn) (audio_chunk : list Z) :
  mfcc_shape_law mfcc ->
  Z.of_nat (length audio_chunk) = SAMPLES_PER_CHUNK ->
  let fm := process_audio mfcc audio_chunk in
  length fm
  = frame_count 2048 512 (length audio_chunk + 2 * (2048 / 2))%nat /\
  length fm = 44%nat /\
  rows_of_width 13 fm /\
  (forall audio : list float,
      exists fm', extract_features_default mfcc audio = Ok fm' /\
                  shape fm' = shape fm).
Proof.
  intros Hlaw Hlen fm.
  pose proof (frames_of_full_chunk _ Hlen) as H44.
  pose proof (centered_frames_default (length audio_chunk)) as Hc.
  pose proof (full_length_nonempty _ Hlen) as Hne.
  destruct (mfcc_T_shape mfcc Hlaw SAMPLE_RATE (map normalize audio_chunk))
    as (Hl & Hw & _).
  { destruct audio_chunk; [congruence | discriminate]. }
  rewrite length_map in Hl.
  fold (process_audio mfcc audio_chunk) in Hl, Hw. fold fm in Hl, Hw.
  assert (Hfm : length fm = 44%nat) by congruence.
  split; [| split; [exact Hfm | split; [exact Hw |]]].
  - fold (centered_frame_count 2048 512 (length audio_chunk)). congruence.
  - intros audio.
    eexists. split; [apply extract_features_default_eq |].
    rewrite (training_shape mfcc audio Hlaw). subst fm.
    rewrite (process_audio_shape mfcc Hlaw audio_chunk Hne).
    f_equal. congruence.
Qed.

Lemma full_chunk_shape_witness :
  mfcc_shape_law probe_mfcc /\
  Z.of_nat (length sawtooth_chunk) = SAMPLES_PER_CHUNK /\
  let fm := process_audio probe_mfcc sawtooth_chunk in
  length fm
  = frame_count 2048 512 (length sawtooth_chunk + 2 * (2048 / 2))%nat /\
  length fm = 44%nat /\
  rows_of_width 13 fm /\
  (forall audio : list float,
      exists fm', extract_features_default probe_mfcc audio = Ok fm' /\
                  shape fm' = shape fm).
Proof.
  split; [exact probe_mfcc_shape |].
  split; [exact sawtooth_chunk_length |].
  exact (full_chunk_shape probe_mfcc sawtooth_chunk probe_mfcc_shape
           sawtooth_chunk_length).
Defined.

(** ** The decision rule *)

Example np_argmax_bell : np_argmax [0.1; 0.95]%float = Ok 1%nat.
Proof. reflexivity. Qed.

Example np_argmax_first_maximum : np_argmax [0.5; 0.5]%float = Ok 0%nat.
Proof. reflexivity. Qed.

Example np_argmax_three : np_argmax [0.2; 0.1; 0.7]%float = Ok 2%nat.
Proof. reflexivity. Qed.

Example np_argmax_nan : np_argmax [0.2; nan; 0.7]%float = Ok 1%nat.
Proof. reflexivity. Qed.

Example np_argmax_empty : np_argmax [] = Raise ValueError.
Proof. reflexivity. Qed.

(** The label at an index is the target class exactly at index 1. *)
Lemma label_is_bell (class_idx : nat) (label : string) :
  index class_names class_idx = Ok label ->
  (label = "bell"%string <-> class_idx = 1%nat).
Proof.
  unfold index, class_names.
  destruct class_idx as [|[|[|n]]]; cbn; intros H; inversion H; subst;
    split; intros E; try discriminate; try reflexivity.
Qed.

(** A third class at the argmax: the label lookup raises. *)
Example decision_third_class :
  decision [[0.1; 0.2; 0.7]%float] = Raise IndexError.
Proof. reflexivity. Qed.

(** The steps of the decision: with [class_idx] what [np.argmax] returns,
    [confidence] the entry there and [label] the class name at that index,
    a detection line is printed if and only if [label] is ["bell"] and
    [confidence > 0.9]; every other cycle prints nothing or raises. *)
Lemma decision_steps :
  (forall (prediction : list (list float)) (conf : float),
      decision prediction = Ok [BellDetected conf] <->
      exists class_idx row label,
        np_argmax (concat prediction) = Ok class_idx /\
        index prediction 0%nat = Ok row /\
        index row class_idx = Ok conf /\
        index class_names class_idx = Ok label /\
        label = "bell"%string /\
        PrimFloat.ltb 0.9%float conf = true) /\
  (forall prediction : list (list float),
      (exists conf, decision prediction = Ok [BellDetected conf]) \/
      decision prediction = Ok [] \/
      (exists e, decision prediction = Raise e)).
Proof.
  split.
  - intros prediction conf. unfold decision. split.
    + intros H.
      apply bind_Ok in H as (class_idx & Hidx & H).
      apply bind_Ok in H as (row & Hrow & H).
      apply bind_Ok in H as (c & Hc & H).
      apply bind_Ok in H as (label & Hlabel & H).
      destruct (String.eqb label "bell") eqn:El; cbn in H;
        [| discriminate].
      destruct (PrimFloat.ltb 0.9 c) eqn:Ec; [| discriminate].
      inversion H; subst conf.
      apply String.eqb_eq in El.
      exists class_idx, row, label. auto 10.
    + intros (class_idx & row & label & Hidx & Hrow & Hc & Hlabel & El & Ec).
      rewrite Hidx; cbn. rewrite Hrow; cbn. rewrite Hc; cbn.
      rewrite Hlabel; cbn. subst label.
      cbn [String.eqb Ascii.eqb Bool.eqb andb].
      rewrite Ec. reflexivity.
  - intros prediction. unfold decision.
    destruct (np_argmax (concat prediction)) as [class_idx|e]; cbn;
      [| right; right; eauto].
    destruct (index prediction 0%nat) as [row|e]; cbn;
      [| right; right; eauto].
    destruct (index row class_idx) as [c|e]; cbn; [| right; right; eauto].
    destruct (index class_names class_idx) as [label|e]; cbn;
      [| right; right; eauto].
    destruct (String.eqb label "bell" && PrimFloat.ltb 0.9 c);
      [left; eauto | right; left; reflexivity].
Qed.

(** ** The classifier call *)

(** The network of [create_model], called on an item: the reshape at its
    head takes every item with as many elements as the declared shape, and
    no other. *)
Lemma call_output_create_model (t f n : nat) (s : list nat) :
  (4 <= t)%nat -> (4 <= f)%nat -> (0 < n)%nat ->
  call_output (create_model (t, f) n) s
  = if Nat.eqb (fold_right Nat.mul 1%nat s) (t * f)%nat
    then Ok [n] else Raise ValueError.
Proof.
  intros Ht Hf Hn.
  assert (Ht2 : (2 <= t / 2)%nat) by (apply Nat.div_le_lower_bound; lia).
  assert (Hf2 : (2 <= f / 2)%nat) by (apply Nat.div_le_lower_bound; lia).
  assert (Hpool : forall h w : nat, (2 <= h)%nat -> (2 <= w)%nat ->
            (2 <=? h)%nat && (2 <=? w)%nat && (0 <? 2)%nat && (0 <? 2)%nat
            = true).
  { intros h w Hh Hw.
    apply Nat.leb_le in Hh. apply Nat.leb_le in Hw. now rewrite Hh, Hw. }
  unfold create_model, call_output. cbn [fst snd model_output layer_output].
  replace (fold_right Nat.mul 1%nat [t; f; 1%nat]) with (t * f)%nat
    by (cbn; lia).
  rewrite (Nat.eqb_sym (t * f)).
  destruct (Nat.eqb (fold_right Nat.mul 1%nat s) (t * f)); [| reflexivity].
  cbn [mbind result_bind model_output layer_output].
  change (0 <? 16)%nat with true. cbv iota.
  cbn [mbind result_bind model_output layer_output].
  rewrite (Hpool t f) by lia.
  cbn [mbind result_bind model_output layer_output].
  change (0 <? 32)%nat with true. cbv iota.
  cbn [mbind result_bind model_output layer_output].
  rewrite (Hpool (t / 2) (f / 2))%nat by assumption.
  cbn [mbind result_bind model_output layer_output fold_right].
  change (0 <? 32)%nat with true. cbv iota.
  cbn [mbind result_bind model_output layer_output removelast app].
  apply Nat.ltb_lt in Hn. rewrite Hn. reflexivity.
Qed.

(** C3, a network built for 22 x 26 (half the frames, twice the
    coefficients) and the 44 x 13 matrix of a full chunk: the dimensions
    differ from those the model expects, and [predict] raises nothing: the
    matrix has the expected number of elements, the network reshapes it and
    answers with probabilities, on which the decision rule fires. *)
Lemma predict_reshapes_silently :
  shape (process_audio probe_mfcc sawtooth_chunk) = (44%nat, 13%nat) /\
  nth_error (create_model (22, 26)%nat 2) 0 = Some (Input [22; 26]%nat) /\
  predict (keras_predict (create_model (22, 26)%nat 2) stub_forward)
          (process_audio probe_mfcc sawtooth_chunk)
  = Ok [[0.1; 0.95]%float] /\
  process_and_predict probe_mfcc
    (keras_predict (create_model (22, 26)%nat 2) stub_forward) sawtooth_chunk
  = Ok [BellDetected 0.95%float].
Proof.
  split; [vm_compute; reflexivity |].
  split; [reflexivity |].
  split; vm_compute; reflexivity.
Qed.

(** C3, as the code has it. [predict] checks no dimension itself and knows
    no error for it: the matrix goes to the network as it is.  The network
    of [create_model], built for [t] frames of [f] coefficients, returns
    its scores for every matrix of [t * f] elements, whatever its
    dimensions, and raises Keras's [ValueError] for every other one. *)
Theorem predict_rejects_by_element_count (t f n : nat)
    (forward : list matrix -> list (list float)) (mfccs : matrix) :
  (4 <= t)%nat -> (4 <= f)%nat -> (0 < n)%nat ->
  ((length mfccs * ncols mfccs)%nat = (t * f)%nat ->
   predict (keras_predict (create_model (t, f) n) forward) mfccs
   = Ok (forward [mfccs])) /\
  ((length mfccs * ncols mfccs)%nat <> (t * f)%nat ->
   predict (keras_predict (create_model (t, f) n) forward) mfccs
   = Raise ValueError).
Proof.
  intros Ht Hf Hn.
  assert (E : predict (keras_predict (create_model (t, f) n) forward) mfccs
              = if Nat.eqb (length mfccs * ncols mfccs) (t * f)
                then Ok (forward [mfccs]) else Raise ValueError).
  { unfold predict, keras_predict, add_batch. cbn [call_all].
    rewrite (call_output_create_model t f n _ Ht Hf Hn).
    unfold item_dims. cbn [fold_right]. rewrite Nat.mul_1_r.
    destruct (Nat.eqb (length mfccs * ncols mfccs) (t * f)); reflexivity. }
  rewrite E. split; intros H.
  - apply Nat.eqb_eq in H. now rewrite H.
  - apply Nat.eqb_neq in H. now rewrite H.
Qed.

Lemma predict_rejects_by_element_count_witness :
  (4 <= 44)%nat /\ (4 <= 13)%nat /\ (0 < 2)%nat /\
  ((length narrow_matrix * ncols narrow_matrix)%nat = (44 * 13)%nat ->
   predict (keras_predict (create_model (44, 13)%nat 2) stub_forward)
           narrow_matrix
   = Ok (stub_forward [narrow_matrix])) /\
  ((length narrow_matrix * ncols narrow_matrix)%nat <> (44 * 13)%nat ->
   predict (keras_predict (create_model (44, 13)%nat 2) stub_forward)
           narrow_matrix
   = Raise ValueError).
Proof.
  assert (Ht : (4 <= 44)%nat) by lia.
  assert (Hf : (4 <= 13)%nat) by lia.
  assert (Hn : (0 < 2)%nat) by lia.
  split; [exact Ht | split; [exact Hf | split; [exact Hn |]]].
  exact (predict_rejects_by_element_count 44 13 2 stub_forward narrow_matrix
           Ht Hf Hn).
Defined.

(** ** The loop *)

Lemma leave_loop_phase (e : exn) (s : state) :
  st_phase (leave_loop e s) <> Running.
Proof. destruct e; cbn; discriminate. Qed.

Lemma leave_loop_delivered (e : exn) (s : state) :
  delivered (leave_loop e s) = delivered s.
Proof. destruct e; reflexivity. Qed.

(** Any exception but [KeyboardInterrupt] leaves the loop with nothing
    caught, printed or released. *)
Lemma error_leaves_loop (e : exn) (s : state) :
  e <> KeyboardInterrupt ->
  leave_loop e s
  = mkState (Crashed e) (stream_active s) (stream_open s) (pa_terminated s)
            (printed s) (delivered s).
Proof. destruct e; intros H; [congruence | reflexivity ..]. Qed.

Lemma leave_loop_resources (e : exn) (s : state) :
  in_use s -> resources_ok (leave_loop e s).
Proof.
  intros H. destruct e; unfold resources_ok; cbn; try exact H.
  unfold released. cbn. auto.
Qed.

Section Loop.

Variable mfcc : mfcc_fn.
Variable model : model_fn.

Lemma run_cons (s : state) (r : read_outcome) (reads : list read_outcome) :
  run mfcc model s (r :: reads) = run mfcc model (step mfcc model s r) reads.
Proof. reflexivity. Qed.

(** Once the program has left the loop no read has any effect. *)
Lemma run_outside_loop (s : state) (reads : list read_outcome) :
  st_phase s <> Running -> run mfcc model s reads = s.
Proof.
  intros H. induction reads as [|r reads IH]; [reflexivity |].
  rewrite run_cons. unfold step at 1.
  destruct (st_phase s) eqn:E; [congruence | exact IH | exact IH].
Qed.

(** What a step adds to the chunks handed to [process_audio]. *)
Lemma step_delivered (s : state) (r : read_outcome) :
  delivered (step mfcc model s r) = delivered s \/
  exists raw chunk, r = ReadData raw /\ frombuffer_int16 raw = Ok chunk /\
                    delivered (step mfcc model s r) = delivered s ++ [chunk].
Proof.
  unfold step. destruct (st_phase s); [| now left | now left].
  unfold cycle. destruct r as [raw|e].
  - destruct (frombuffer_int16 raw) as [chunk|e] eqn:Hraw.
    + right. exists raw, chunk. split; [reflexivity | split; [exact Hraw |]].
      destruct (process_and_predict mfcc model chunk) as [lines|e];
        [reflexivity | now rewrite leave_loop_delivered].
    + left. apply leave_loop_delivered.
  - left. apply leave_loop_delivered.
Qed.

Lemma run_delivered (reads : list read_outcome) (s : state) :
  Forall (read_contract SAMPLES_PER_CHUNK) reads ->
  Forall full_chunk (delivered s) ->
  Forall full_chunk (delivered (run mfcc model s reads)).
Proof.
  revert s. induction reads as [|r reads IH]; intros s Hreads Hs.
  - exact Hs.
  - rewrite run_cons. inversion Hreads as [|r' reads' Hr Hrest]; subst.
    apply IH; [exact Hrest |].
    destruct (step_delivered s r)
      as [E | (raw & chunk & -> & Hraw & E)]; rewrite E; [exact Hs |].
    apply Forall_app. split; [exact Hs |].
    constructor; [| constructor].
    destruct (frombuffer_int16_spec raw chunk Hraw) as [Hl Hi].
    split; [| exact Hi]. cbn in Hr. lia.
Qed.

Lemma step_resources (s : state) (r : read_outcome) :
  resources_ok s -> resources_ok (step mfcc model s r).
Proof.
  intros H. unfold step. destruct (st_phase s) eqn:E; [| exact H | exact H].
  assert (Hin : in_use s) by (unfold resources_ok in H; now rewrite E in H).
  unfold cycle. destruct r as [raw|e]; [| now apply leave_loop_resources].
  destruct (frombuffer_int16 raw) as [chunk|e];
    [| now apply leave_loop_resources].
  destruct (process_and_predict mfcc model chunk) as [lines|e].
  - unfold resources_ok. cbn. rewrite E. exact Hin.
  - apply leave_loop_resources. exact Hin.
Qed.

(** Whatever the stream and the model do, the stream is released exactly
    when the loop was left through Ctrl+C. *)
Lemma run_resources (reads : list read_outcome) (s : state) :
  resources_ok s -> resources_ok (run mfcc model s reads).
Proof.
  revert s. induction reads as [|r reads IH]; intros s H; [exact H |].
  rewrite run_cons. apply IH, step_resources, H.
Qed.

(** Ctrl+C during a read: the handler stops and closes the stream,
    terminates PyAudio and prints the last line; no later read happens. *)
Lemma interrupt_releases (s : state) (rest : list read_outcome) :
  st_phase s = Running ->
  let s' := run mfcc model s (ReadRaises KeyboardInterrupt :: rest) in
  st_phase s' = Stopped /\ released s' /\
  printed s' = printed s ++ [StoppedMsg] /\ delivered s' = delivered s.
Proof.
  intros Hrun s'.
  assert (E : s' = mkState Stopped false false true
                           (printed s ++ [StoppedMsg]) (delivered s)).
  { subst s'. rewrite run_cons. unfold step. rewrite Hrun.
    cbn [cycle leave_loop]. apply run_outside_loop. cbn. discriminate. }
  rewrite E. unfold released. cbn. repeat split; reflexivity.
Qed.

(** A cycle that raises nothing prints what the decision rule returns and
    stays in the loop. *)
Lemma quiet_cycle (s : state) (raw : list Byte.byte) (audio_chunk : list Z)
    (lines : list output) :
  st_phase s = Running ->
  frombuffer_int16 raw = Ok audio_chunk ->
  process_and_predict mfcc model audio_chunk = Ok lines ->
  step mfcc model s (ReadData raw)
  = mkState Running (stream_active s) (stream_open s) (pa_terminated s)
            (printed s ++ lines) (delivered s ++ [audio_chunk]).
Proof.
  intros Hrun Hraw Hlines. unfold step. rewrite Hrun. unfold cycle.
  rewrite Hraw, Hlines. cbn. now rewrite Hrun.
Qed.

End Loop.

Lemma initial_resources : resources_ok initial.
Proof. unfold resources_ok, in_use. cbn. auto. Qed.

(** C4, as the code has it. When feature extraction or [predict] raises an
    exception in a cycle (other than [KeyboardInterrupt]), nothing catches
    or logs it: the loop ends at that cycle with the exception, prints
    nothing for it, and processes no later chunk. *)
Theorem cycle_error_ends_the_loop (mfcc : mfcc_fn) (model : model_fn)
    (s : state) (raw : list Byte.byte) (audio_chunk : list Z) (e : exn)
    (rest : list read_outcome) :
  st_phase s = Running ->
  frombuffer_int16 raw = Ok audio_chunk ->
  process_and_predict mfcc model audio_chunk = Raise e ->
  e <> KeyboardInterrupt ->
  run mfcc model s (ReadData raw :: rest)
  = mkState (Crashed e) (stream_active s) (stream_open s) (pa_terminated s)
            (printed s) (delivered s ++ [audio_chunk]).
Proof.
  intros Hrun Hraw Hraise He. rewrite run_cons. unfold step at 1.
  rewrite Hrun. unfold cycle. rewrite Hraw, Hraise.
  rewrite error_leaves_loop by exact He.
  apply run_outside_loop. cbn. discriminate.
Qed.

Lemma cycle_error_ends_the_loop_witness :
  st_phase initial = Running /\
  frombuffer_int16 (tobytes sawtooth_chunk) = Ok sawtooth_chunk /\
  process_and_predict probe_mfcc picky_model sawtooth_chunk
  = Raise ValueError /\
  ValueError <> KeyboardInterrupt /\
  run probe_mfcc picky_model initial
      [ReadData (tobytes sawtooth_chunk); ReadData (tobytes loud_chunk)]
  = mkState (Crashed ValueError) (stream_active initial) (stream_open initial)
            (pa_terminated initial) (printed initial)
            (delivered initial ++ [sawtooth_chunk]).
Proof.
  assert (Hne : ValueError <> KeyboardInterrupt) by discriminate.
  split; [reflexivity |].
  split; [exact frombuffer_sawtooth |].
  split; [exact sawtooth_rejected |].
  split; [exact Hne |].
  exact (cycle_error_ends_the_loop probe_mfcc picky_model initial
           (tobytes sawtooth_chunk) sawtooth_chunk ValueError
           [ReadData (tobytes loud_chunk)]
           eq_refl frombuffer_sawtooth sawtooth_rejected Hne).
Defined.

(** C4, a stream whose first window the classifier rejects and whose second
    window it would report: the loop ends at the first, nothing is printed
    for it, the second is never processed, although alone it is detected. *)
Lemma one_bad_window_ends_the_loop :
  st_phase (run probe_mfcc picky_model initial
              [ReadData (tobytes sawtooth_chunk);
               ReadData (tobytes loud_chunk)])
  = Crashed ValueError /\
  printed (run probe_mfcc picky_model initial
             [ReadData (tobytes sawtooth_chunk);
              ReadData (tobytes loud_chunk)])
  = [Listening] /\
  length (delivered (run probe_mfcc picky_model initial
                       [ReadData (tobytes sawtooth_chunk);
                        ReadData (tobytes loud_chunk)]))
  = 1%nat /\
  printed (run probe_mfcc picky_model initial [ReadData (tobytes loud_chunk)])
  = [Listening; BellDetected 0.95%float].
Proof.
  split; [vm_compute; reflexivity |].
  split; [vm_compute; reflexivity |].
  split; vm_compute; reflexivity.
Qed.

(** Every run that an exception other than Ctrl+C ended has left the
    stream active and open and PyAudio alive. *)
Lemma crash_releases_nothing (mfcc : mfcc_fn) (model : model_fn)
    (reads : list read_outcome) (e : exn) :
  st_phase (run mfcc model initial reads) = Crashed e ->
  in_use (run mfcc model initial reads).
Proof.
  intros H.
  pose proof (run_resources mfcc model reads initial initial_resources) as R.
  unfold resources_ok in R. now rewrite H in R.
Qed.

(** C6, at a failing read and at a failing [predict]: the program ends with
    the exception; the stream is still open and active, PyAudio is not
    terminated, and the closing line is not printed. *)
Theorem error_exit_releases_nothing :
  (let s := run probe_mfcc stub_model initial
                [ReadRaises OSError; ReadData (tobytes loud_chunk)] in
   st_phase s = Crashed OSError /\ stream_active s = true /\
   stream_open s = true /\ pa_terminated s = false /\
   printed s = [Listening]) /\
  (let s := run probe_mfcc picky_model initial
                [ReadData (tobytes sawtooth_chunk);
                 ReadRaises KeyboardInterrupt] in
   st_phase s = Crashed ValueError /\ stream_active s = true /\
   stream_open s = true /\ pa_terminated s = false /\
   printed s = [Listening]).
Proof.
  split; cbv zeta.
  - repeat (split; [vm_compute; reflexivity |]). vm_compute; reflexivity.
  - repeat (split; [vm_compute; reflexivity |]). vm_compute; reflexivity.
Qed.

(** Ctrl+C at any cycle, from the start of the program: the stream is
    stopped and closed, PyAudio terminated, the closing line printed, and
    the reads that would follow never happen. *)
Theorem ctrl_c_stops_and_releases (mfcc : mfcc_fn) (model : model_fn)
    (before after : list read_outcome) :
  st_phase (run mfcc model initial before) = Running ->
  let s := run mfcc model initial before in
  let s' := run mfcc model initial
                (before ++ ReadRaises KeyboardInterrupt :: after) in
  st_phase s' = Stopped /\ released s' /\
  printed s' = printed s ++ [StoppedMsg] /\ delivered s' = delivered s.
Proof.
  intros Hrun s s'.
  assert (E : s' = run mfcc model s (ReadRaises KeyboardInterrupt :: after)).
  { subst s' s. unfold run. apply fold_left_app. }
  rewrite E. apply (interrupt_releases mfcc model s after Hrun).
Qed.

Lemma ctrl_c_stops_and_releases_witness :
  st_phase (run probe_mfcc stub_model initial []) = Running /\
  let s := run probe_mfcc stub_model initial [] in
  let s' := run probe_mfcc stub_model initial
                ([] ++ ReadRaises KeyboardInterrupt
                    :: [ReadData (tobytes loud_chunk)]) in
  st_phase s' = Stopped /\ released s' /\
  printed s' = printed s ++ [StoppedMsg] /\ delivered s' = delivered s.
Proof.
  split; [reflexivity |].
  exact (ctrl_c_stops_and_releases probe_mfcc stub_model []
           [ReadData (tobytes loud_chunk)] eq_refl).
Defined.

(** With a classifier that always answers background 0.1, bell 0.95, every
    window that is read prints exactly one detection, of confidence 0.95. *)
Theorem stub_classifier_detects (mfcc : mfcc_fn) (s : state)
    (raw : list Byte.byte) (audio_chunk : list Z) :
  st_phase s = Running ->
  frombuffer_int16 raw = Ok audio_chunk ->
  printed (step mfcc stub_model s (ReadData raw))
  = printed s ++ [BellDetected 0.95%float].
Proof.
  intros Hrun Hraw.
  rewrite (quiet_cycle mfcc stub_model s raw audio_chunk
             [BellDetected 0.95%float] Hrun Hraw eq_refl).
  reflexivity.
Qed.

Lemma stub_classifier_detects_witness :
  st_phase initial = Running /\
  frombuffer_int16 (tobytes sawtooth_chunk) = Ok sawtooth_chunk /\
  printed (step probe_mfcc stub_model initial
             (ReadData (tobytes sawtooth_chunk)))
  = printed initial ++ [BellDetected 0.95%float].
Proof.
  split; [reflexivity |].
  split; [exact frombuffer_sawtooth |].
  exact (stub_classifier_detects probe_mfcc initial (tobytes sawtooth_chunk)
           sawtooth_chunk eq_refl frombuffer_sawtooth).
Defined.

(** ** The upload endpoint *)

Lemma components_file_location (f : UploadFile) :
  components (file_location f) = "uploads"%string :: components (filename f).
Proof. reflexivity. Qed.

Lemma components_from_nonempty (s cur : string) : components_from cur s <> [].
Proof.
  revert cur. induction s as [|c s IH]; intros cur; cbn; [discriminate |].
  destruct (Ascii.eqb c "/"); [discriminate | apply IH].
Qed.

(** Nothing was stripped if nothing is shorter. *)
Lemma strip_trailing_same (cs : list string) :
  length (strip_trailing cs) = length cs -> strip_trailing cs = cs.
Proof.
  induction cs as [|c rest IH]; [reflexivity |].
  cbn [strip_trailing].
  destruct (strip_trailing rest) as [|c' rest'] eqn:E.
  - destruct (String.eqb c EmptyString); cbn; [discriminate |].
    intros H. destruct rest; [reflexivity | discriminate].
  - intros H. f_equal. apply IH. cbn [length] in *. lia.
Qed.

Lemma open_wb_Ok (fs fs1 : filesystem) (path : string) :
  open_wb fs path = Ok fs1 ->
  exists p : rpath,
    open_target fs path = Ok p /\
    fs1 = mkFs (cwd fs) (dirs fs) (<[p := []]> (files fs)).
Proof.
  unfold open_wb. intros H. apply bind_Ok in H as (p & Hp & H).
  exists p. split; [exact Hp | congruence].
Qed.

(** Where a successful walk leads depends on the directories only. *)
Lemma walk_step_dirs (fs fs' : filesystem) (cur p : rpath) (c : string) :
  dirs fs' = dirs fs ->
  walk_step fs cur c = Ok p -> walk_step fs' cur c = Ok p.
Proof.
  unfold walk_step. intros Hd.
  destruct (String.eqb c EmptyString || String.eqb c "."); [trivial |].
  destruct (String.eqb c ".."); [trivial |].
  destruct (NAME_MAX <? String.length c)%nat; [trivial |].
  rewrite Hd.
  destruct (bool_decide (cur ++ [c] ∈ dirs fs)); [trivial |].
  destruct (bool_decide (is_Some (files fs !! (cur ++ [c])))); discriminate.
Qed.

Lemma walk_dirs (fs fs' : filesystem) (cs : list string) :
  dirs fs' = dirs fs ->
  forall cur p : rpath, walk fs cur cs = Ok p -> walk fs' cur cs = Ok p.
Proof.
  intros Hd. induction cs as [|c rest IH]; intros cur p H; [exact H |].
  cbn [walk] in *. apply bind_Ok in H as (next & Hn & H).
  rewrite (walk_step_dirs fs fs' cur next c Hd Hn). cbn [mbind result_bind].
  now apply IH.
Qed.

Lemma open_target_dirs (fs fs' : filesystem) (path : string) (p : rpath) :
  cwd fs' = cwd fs -> dirs fs' = dirs fs ->
  open_target fs path = Ok p -> open_target fs' path = Ok p.
Proof.
  unfold open_target. intros Hc Hd H.
  destruct (has_nul path); [discriminate |].
  destruct (PATH_MAX <=? String.length path)%nat; [discriminate |].
  apply bind_Ok in H as (dir & Hw & H). rewrite Hc.
  rewrite (walk_dirs fs fs' _ Hd _ _ Hw). cbn [mbind result_bind].
  rewrite Hd. exact H.
Qed.

(** What a successful [open] of [uploads/name] went through: the uploads
    directory is there, and the file's place is found by walking from it
    along the components of the name, all of them, as they came. *)
Lemma open_target_file_location (fs : filesystem) (f : UploadFile)
    (p : rpath) :
  open_target fs (file_location f) = Ok p ->
  cwd fs ++ [UPLOAD_DIR] ∈ dirs fs /\
  exists dir : rpath,
    walk fs (cwd fs ++ [UPLOAD_DIR]) (removelast (components (filename f)))
    = Ok dir /\
    p = dir ++ [List.last (components (filename f)) EmptyString].
Proof.
  unfold open_target. intros H.
  destruct (has_nul (file_location f)); [discriminate |].
  destruct (PATH_MAX <=? String.length (file_location f))%nat;
    [discriminate |].
  change (String.prefix "/" (file_location f)) with false in H. cbv iota in H.
  apply bind_Ok in H as (dir & Hw & H).
  destruct (String.eqb (List.last (strip_trailing (components (file_location f)))
                                  EmptyString) EmptyString);
    [destruct (String.eqb (file_location f) EmptyString); discriminate |].
  destruct (String.eqb (List.last (strip_trailing (components (file_location f)))
                                  EmptyString) "."
            || String.eqb (List.last (strip_trailing
                                        (components (file_location f)))
                                     EmptyString) "..");
    [discriminate |].
  destruct (length (strip_trailing (components (file_location f)))
            =? length (components (file_location f)))%nat eqn:El;
    [| discriminate].
  apply Nat.eqb_eq, strip_trailing_same in El.
  rewrite El in Hw, H. clear El.
  rewrite components_file_location in Hw, H.
  pose proof (components_from_nonempty (filename f) EmptyString) as Hne.
  fold (components (filename f)) in Hne.
  destruct (components (filename f)) as [|c0 cs0] eqn:Ec; [congruence |].
  change (removelast ("uploads"%string :: c0 :: cs0))
    with ("uploads"%string :: removelast (c0 :: cs0)) in Hw.
  change (List.last ("uploads"%string :: c0 :: cs0) EmptyString)
    with (List.last (c0 :: cs0) EmptyString) in H.
  cbn [walk] in Hw. apply bind_Ok in Hw as (next & Hn & Hw).
  unfold walk_step in Hn.
  change (String.eqb "uploads" EmptyString || String.eqb "uploads" ".")
    with false in Hn.
  change (String.eqb "uploads" "..") with false in Hn.
  change (NAME_MAX <? String.length "uploads")%nat with false in Hn.
  cbv iota in Hn.
  destruct (bool_decide (cwd fs ++ ["uploads"%string] ∈ dirs fs)) eqn:Eu;
    [| destruct (bool_decide (is_Some (files fs !! (cwd fs ++ ["uploads"%string]))));
       discriminate].
  apply bool_decide_eq_true in Eu. inversion Hn; subst next; clear Hn.
  split; [exact Eu |].
  exists dir. split; [exact Hw |].
  destruct (NAME_MAX <? String.length (List.last (c0 :: cs0) EmptyString))%nat;
    [discriminate |].
  destruct (bool_decide (dir ++ [List.last (c0 :: cs0) EmptyString] ∈ dirs fs));
    [discriminate |].
  cbn [negb] in H. congruence.
Qed.

(** A plain file name stays in the uploads directory; one that climbs
    does not; one that goes through what is not there is refused. *)
Example open_target_plain :
  open_target server_fs "uploads/bell_02.wav"
  = Ok ["srv"; "app"; "uploads"; "bell_02.wav"]%string.
Proof. vm_compute. reflexivity. Qed.

Example open_target_climbing :
  open_target server_fs "uploads/../../secret"
  = Ok ["srv"; "secret"]%string.
Proof. vm_compute. reflexivity. Qed.

Example open_target_missing_directory :
  open_target server_fs "uploads/a/../b.wav" = Raise FileNotFoundError.
Proof. vm_compute. reflexivity. Qed.

Example open_target_missing_dot :
  open_target server_fs "uploads/x/." = Raise FileNotFoundError.
Proof. vm_compute. reflexivity. Qed.

Example open_target_through_file :
  open_target server_fs "uploads/bell_01.wav/../x" = Raise OSError.
Proof. vm_compute. reflexivity. Qed.

Example open_target_directory :
  open_target server_fs "uploads/" = Raise IsADirectoryError.
Proof. vm_compute. reflexivity. Qed.

Lemma traversal_target :
  open_target server_fs (file_location traversal_upload)
  = Ok ["srv"; "app"; "main.py"]%string.
Proof. vm_compute. reflexivity. Qed.

(** C10. Whenever [upload_audio] succeeds, the path it opened is
    ["uploads/"] followed by the client's file name as it came; the file
    written is the one that the system finds by walking from the uploads
    directory along the components of that name, with nothing filtered (so
    [..] leaves the directory); it holds exactly the uploaded bytes,
    whatever it held before, every other file and every directory is
    untouched, and the response's [filename] is the client's file name. *)
Theorem upload_audio_stores_verbatim (fs fs' : filesystem) (f : UploadFile)
    (resp : json) :
  upload_audio fs f = Ok (fs', resp) ->
  file_location f = ("uploads/" +:+ filename f)%string /\
  exists p : rpath,
    open_target fs (file_location f) = Ok p /\
    (exists dir : rpath,
        walk fs (cwd fs ++ [UPLOAD_DIR]) (removelast (components (filename f)))
        = Ok dir /\
        p = dir ++ [List.last (components (filename f)) EmptyString]) /\
    files fs' !! p = Some (file f) /\
    (forall q : rpath, q <> p -> files fs' !! q = files fs !! q) /\
    dirs fs' = dirs fs /\ cwd fs' = cwd fs /\
    json_get "filename" resp = Some (filename f).
Proof.
  unfold upload_audio. intros H.
  apply bind_Ok in H as (fs1 & Hopen & H).
  apply open_wb_Ok in Hopen as (p & Hp & ->).
  inversion H; subst fs' resp; clear H.
  split; [reflexivity |].
  exists p. split; [exact Hp |].
  split; [exact (proj2 (open_target_file_location fs f p Hp)) |].
  unfold copyfileobj.
  rewrite (open_target_dirs
             fs (mkFs (cwd fs) (dirs fs) (<[p := []]> (files fs)))
             (file_location f) p eq_refl eq_refl Hp).
  cbn [files dirs cwd].
  split; [| split; [| split; [| split]]]; try reflexivity.
  - rewrite !lookup_insert_eq. reflexivity.
  - intros q Hq. rewrite !lookup_insert_ne by congruence. reflexivity.
Qed.

Lemma upload_audio_stores_verbatim_witness :
  exists (fs' : filesystem) (resp : json),
    upload_audio server_fs traversal_upload = Ok (fs', resp) /\
    file_location traversal_upload = "uploads/../main.py"%string /\
    open_target server_fs (file_location traversal_upload)
    = Ok ["srv"; "app"; "main.py"]%string /\
    ~ inside_uploads server_fs ["srv"; "app"; "main.py"]%string /\
    files server_fs !! ["srv"; "app"; "main.py"]%string = Some old_bytes /\
    files fs' !! ["srv"; "app"; "main.py"]%string = Some new_bytes /\
    json_get "filename" resp = Some "../main.py"%string.
Proof.
  destruct (upload_audio server_fs traversal_upload) as [[fs' resp]|e] eqn:E;
    [| vm_compute in E; discriminate].
  exists fs', resp.
  destruct (upload_audio_stores_verbatim server_fs fs' traversal_upload resp E)
    as (Hloc & p & Hp & _ & Hfile & _ & _ & _ & Hresp).
  assert (p = ["srv"; "app"; "main.py"]%string)
    by (pose proof traversal_target; congruence).
  subst p.
  split; [reflexivity |].
  split; [exact Hloc |].
  split; [exact Hp |].
  split; [intros [rest Hrest]; discriminate |].
  split; [reflexivity |].
  split; [exact Hfile | exact Hresp].
Defined.

(** * Further properties *)

(** ** The order of floats *)

Lemma SFleb_trans (a b c : spec_float) :
  SFleb a b = true -> SFleb b c = true -> SFleb a c = true.
Proof.
  unfold SFleb, SFcompare.
  destruct a as [sa|sa| |sa ma ea], b as [sb|sb| |sb mb eb],
           c as [sc|sc| |sc mc ec];
    try destruct sa; try destruct sb; try destruct sc;
    try reflexivity; try discriminate; cbn;
    rewrite ?Pos.compare_cont_spec; cbn;
    try (destruct (Z.compare_spec ea eb), (Z.compare_spec eb ec),
           (Z.compare_spec ea ec);
         try reflexivity; try discriminate; try lia; subst;
         destruct (Pos.compare_spec ma mb), (Pos.compare_spec mb mc),
           (Pos.compare_spec ma mc); cbn;
         try reflexivity; try discriminate; try lia).
Qed.

(** Two floats that are not NaN compare one way or the other. *)
Lemma SFleb_false (a b : spec_float) :
  a <> S754_nan -> b <> S754_nan -> SFleb a b = false -> SFltb b a = true.
Proof.
  unfold SFleb, SFltb, SFcompare.
  destruct a as [sa|sa| |sa ma ea], b as [sb|sb| |sb mb eb];
    try destruct sa; try destruct sb;
    try reflexivity; try discriminate; try congruence; cbn;
    rewrite ?Pos.compare_cont_spec; cbn;
    intros _ _;
    destruct (Z.compare_spec ea eb), (Z.compare_spec eb ea);
    try reflexivity; try discriminate; try lia; subst;
    destruct (Pos.compare_spec ma mb), (Pos.compare_spec mb ma); cbn;
    try reflexivity; try discriminate; try lia.
Qed.

Lemma SFltb_leb (a b : spec_float) : SFltb a b = true -> SFleb a b = true.
Proof.
  unfold SFltb, SFleb. destruct (SFcompare a b) as [[| |]|];
    try discriminate; reflexivity.
Qed.

Lemma SFleb_ltb_trans (a b c : spec_float) :
  SFleb a b = true -> SFltb b c = true -> SFltb a c = true.
Proof.
  unfold SFleb, SFltb, SFcompare.
  destruct a as [sa|sa| |sa ma ea], b as [sb|sb| |sb mb eb],
           c as [sc|sc| |sc mc ec];
    try destruct sa; try destruct sb; try destruct sc;
    try reflexivity; try discriminate; cbn;
    rewrite ?Pos.compare_cont_spec; cbn;
    try (destruct (Z.compare_spec ea eb), (Z.compare_spec eb ec),
           (Z.compare_spec ea ec);
         try reflexivity; try discriminate; try lia; subst;
         destruct (Pos.compare_spec ma mb), (Pos.compare_spec mb mc),
           (Pos.compare_spec ma mc); cbn;
         try reflexivity; try discriminate; try lia).
Qed.

Lemma is_nan_spec (x : float) :
  PrimFloat.is_nan x = true <-> Prim2SF x = S754_nan.
Proof.
  unfold PrimFloat.is_nan. rewrite FloatAxioms.eqb_spec. unfold SFeqb, SFcompare.
  destruct (Prim2SF x) as [s|s| |s m e]; try destruct s; cbn;
    rewrite ?Pos.compare_cont_spec, ?Z.compare_refl, ?Pos.compare_refl; cbn;
    split; intros H; try discriminate; try reflexivity.
Qed.

Lemma not_nan_spec (x : float) :
  PrimFloat.is_nan x = false <-> Prim2SF x <> S754_nan.
Proof.
  split.
  - intros H E. apply is_nan_spec in E. congruence.
  - intros H. destruct (PrimFloat.is_nan x) eqn:E; [| reflexivity].
    apply is_nan_spec in E. congruence.
Qed.

Lemma leb_trans (x y z : float) :
  PrimFloat.leb x y = true -> PrimFloat.leb y z = true ->
  PrimFloat.leb x z = true.
Proof. rewrite !FloatAxioms.leb_spec. apply SFleb_trans. Qed.

Lemma leb_false (x y : float) :
  PrimFloat.is_nan x = false -> PrimFloat.is_nan y = false ->
  PrimFloat.leb x y = false -> PrimFloat.ltb y x = true.
Proof.
  rewrite !not_nan_spec, FloatAxioms.leb_spec, FloatAxioms.ltb_spec. apply SFleb_false.
Qed.

Lemma ltb_leb (x y : float) :
  PrimFloat.ltb x y = true -> PrimFloat.leb x y = true.
Proof. rewrite FloatAxioms.ltb_spec, FloatAxioms.leb_spec. apply SFltb_leb. Qed.

Lemma leb_ltb_trans (x y z : float) :
  PrimFloat.leb x y = true -> PrimFloat.ltb y z = true ->
  PrimFloat.ltb x z = true.
Proof. rewrite FloatAxioms.leb_spec, !FloatAxioms.ltb_spec. apply SFleb_ltb_trans. Qed.

Lemma leb_refl (x : float) :
  PrimFloat.is_nan x = false -> PrimFloat.leb x x = true.
Proof.
  rewrite not_nan_spec, FloatAxioms.leb_spec. unfold SFleb, SFcompare.
  destruct (Prim2SF x) as [s|s| |s m e]; try destruct s; cbn;
    rewrite ?Pos.compare_cont_spec, ?Z.compare_refl, ?Pos.compare_refl; cbn;
    congruence.
Qed.

(** A float that compares is not NaN. *)
Lemma leb_not_nan (x y : float) :
  PrimFloat.leb x y = true ->
  PrimFloat.is_nan x = false /\ PrimFloat.is_nan y = false.
Proof.
  rewrite !not_nan_spec, FloatAxioms.leb_spec. unfold SFleb, SFcompare.
  destruct (Prim2SF x) as [s|s| |s m e], (Prim2SF y) as [t|t| |t n f];
    intros H; try discriminate; split; discriminate.
Qed.

(** ** [np.argmax] *)

(** The scan keeps the first largest element seen so far, and stops at the
    first NaN. *)
Lemma argmax_scan_spec (rest : list float) :
  forall (seen : list float) (mp : float) (best i : nat),
    length seen = i ->
    nth_error seen best = Some mp ->
    PrimFloat.is_nan mp = false ->
    Forall (fun x => PrimFloat.leb x mp = true) seen ->
    (forall j x, (j < best)%nat -> nth_error seen j = Some x ->
                 PrimFloat.ltb x mp = true) ->
    exists m,
      nth_error (seen ++ rest) (argmax_scan mp best i rest) = Some m /\
      ((PrimFloat.is_nan m = true /\
        forall j x, (j < argmax_scan mp best i rest)%nat ->
                    nth_error (seen ++ rest) j = Some x ->
                    PrimFloat.is_nan x = false) \/
       (PrimFloat.is_nan m = false /\
        Forall (fun x => PrimFloat.leb x m = true) (seen ++ rest) /\
        forall j x, (j < argmax_scan mp best i rest)%nat ->
                    nth_error (seen ++ rest) j = Some x ->
                    PrimFloat.ltb x m = true)).
Proof.
  induction rest as [|x rest IH]; intros seen mp best i Hlen Hbest Hmp Hle Hlt.
  - cbn [argmax_scan]. rewrite app_nil_r. exists mp. split; [exact Hbest |].
    right. auto.
  - assert (Hb : (best < length seen)%nat).
    { apply nth_error_Some. congruence. }
    cbn [argmax_scan].
    replace (seen ++ x :: rest) with ((seen ++ [x]) ++ rest)
      by (now rewrite <- app_assoc).
    destruct (PrimFloat.leb x mp) eqn:Hx; cbn [negb].
    + apply IH.
      * rewrite length_app. cbn. lia.
      * rewrite nth_error_app1 by exact Hb. exact Hbest.
      * exact Hmp.
      * apply Forall_app. split; [exact Hle |]. constructor; [exact Hx | constructor].
      * intros j y Hj Hy. apply (Hlt j y Hj).
        rewrite nth_error_app1 in Hy by lia. exact Hy.
    + destruct (PrimFloat.is_nan x) eqn:Hnan.
      * exists x. split.
        { rewrite <- app_assoc. cbn. rewrite nth_error_app2 by lia.
          replace (i - length seen)%nat with 0%nat by lia. reflexivity. }
        left. split; [exact Hnan |].
        intros j y Hj Hy. rewrite <- app_assoc in Hy.
        rewrite nth_error_app1 in Hy by lia.
        apply nth_error_In in Hy.
        rewrite List.Forall_forall in Hle.
        apply (leb_not_nan y mp). auto.
      * pose proof (leb_false x mp Hnan Hmp Hx) as Hmx.
        apply IH.
        -- rewrite length_app. cbn. lia.
        -- rewrite nth_error_app2 by lia.
           replace (i - length seen)%nat with 0%nat by lia. reflexivity.
        -- exact Hnan.
        -- apply Forall_app. split.
           ++ rewrite List.Forall_forall in Hle |- *. intros y Hy.
              apply (leb_trans y mp x); [auto | now apply ltb_leb].
           ++ constructor; [now apply leb_refl | constructor].
        -- intros j y Hj Hy. rewrite nth_error_app1 in Hy by lia.
           apply nth_error_In in Hy. rewrite List.Forall_forall in Hle.
           apply (leb_ltb_trans y mp x); auto.
Qed.

Lemma np_argmax_nonempty (x : float) (rest : list float) :
  exists i m,
    np_argmax (x :: rest) = Ok i /\ nth_error (x :: rest) i = Some m /\
    ((PrimFloat.is_nan m = true /\
      forall j y, (j < i)%nat -> nth_error (x :: rest) j = Some y ->
                  PrimFloat.is_nan y = false) \/
     (PrimFloat.is_nan m = false /\
      Forall (fun y => PrimFloat.leb y m = true) (x :: rest) /\
      forall j y, (j < i)%nat -> nth_error (x :: rest) j = Some y ->
                  PrimFloat.ltb y m = true)).
Proof.
  cbn [np_argmax]. destruct (PrimFloat.is_nan x) eqn:Hnan.
  - exists 0%nat, x. split; [reflexivity | split; [reflexivity |]].
    left. split; [exact Hnan |]. intros j y Hj. lia.
  - destruct (argmax_scan_spec rest [x] x 0%nat 1%nat) as (m & Hm & Hcases).
    + reflexivity.
    + reflexivity.
    + exact Hnan.
    + constructor; [now apply leb_refl | constructor].
    + intros j y Hj. lia.
    + exists (argmax_scan x 0 1 rest), m. split; [reflexivity |].
      split; [exact Hm | exact Hcases].
Qed.

(** [np.argmax] raises on an empty array only; otherwise it returns the
    index of the first NaN if there is one, and else of the first largest
    element. *)
Theorem np_argmax_spec (xs : list float) :
  (xs = [] -> np_argmax xs = Raise ValueError) /\
  (xs <> [] ->
   exists i m,
     np_argmax xs = Ok i /\ nth_error xs i = Some m /\
     ((PrimFloat.is_nan m = true /\
       forall j x, (j < i)%nat -> nth_error xs j = Some x ->
                   PrimFloat.is_nan x = false) \/
      (PrimFloat.is_nan m = false /\
       Forall (fun x => PrimFloat.leb x m = true) xs /\
       forall j x, (j < i)%nat -> nth_error xs j = Some x ->
                   PrimFloat.ltb x m = true))).
Proof.
  split; [intros ->; reflexivity |].
  intros Hne. destruct xs as [|x rest]; [congruence |].
  apply np_argmax_nonempty.
Qed.

Lemma np_argmax_Ok (xs : list float) (i : nat) :
  np_argmax xs = Ok i ->
  exists m,
    nth_error xs i = Some m /\
    (PrimFloat.is_nan m = false ->
     Forall (fun x => PrimFloat.leb x m = true) xs /\
     forall j x, (j < i)%nat -> nth_error xs j = Some x ->
                 PrimFloat.ltb x m = true).
Proof.
  intros H. destruct xs as [|x rest]; [discriminate |].
  destruct (np_argmax_nonempty x rest) as (i' & m & Hi & Hm & Hcases).
  assert (i' = i) by congruence. subst i'.
  exists m. split; [exact Hm |]. intros Hnan.
  destruct Hcases as [[Hn _] | [_ Hmax]]; [congruence | exact Hmax].
Qed.

(** ** The decision rule and the largest score *)

Lemma ltb_irrefl (x : float) : PrimFloat.ltb x x = false.
Proof.
  rewrite FloatAxioms.ltb_spec. unfold SFltb, SFcompare.
  destruct (Prim2SF x) as [s|s| |s m e]; try destruct s; cbn;
    rewrite ?Pos.compare_cont_spec, ?Z.compare_refl, ?Pos.compare_refl; cbn;
    reflexivity.
Qed.

Lemma ltb_not_leb (x y : float) :
  PrimFloat.ltb x y = true -> PrimFloat.leb y x = true -> False.
Proof.
  intros Hlt Hle. pose proof (leb_ltb_trans y x y Hle Hlt) as H.
  rewrite ltb_irrefl in H. discriminate.
Qed.

(** [np.argmax] returns the position of the first largest entry, whenever
    there is one. *)
Lemma first_largest_argmax (xs : list float) (i : nat) (m : float) :
  first_largest xs i m -> np_argmax xs = Ok i.
Proof.
  intros (Hm & Hall & Hfirst).
  destruct xs as [|x rest]; [destruct i; discriminate |].
  destruct (np_argmax_nonempty x rest) as (i' & m' & Hi & Hm' & Hcases).
  rewrite Hi. f_equal.
  pose proof (nth_error_In _ _ Hm) as Hin.
  pose proof (nth_error_In _ _ Hm') as Hin'.
  destruct Hcases as [[Hnan _] | (_ & Hall' & Hfirst')].
  - destruct (leb_not_nan _ _ (Hall m' Hin')) as [Hn _]. congruence.
  - rewrite List.Forall_forall in Hall'.
    destruct (lt_eq_lt_dec i i') as [[Hlt | ->] | Hgt]; [| reflexivity |].
    + exfalso. apply (ltb_not_leb m m'); [exact (Hfirst' i m Hlt Hm) | auto].
    + exfalso. apply (ltb_not_leb m' m); [exact (Hfirst i' m' Hgt Hm') | auto].
Qed.

(** Conversely, what [np.argmax] returns is the position of the first
    largest entry, unless the entry there is NaN. *)
Lemma argmax_first_largest (xs : list float) (i : nat) (m : float) :
  np_argmax xs = Ok i -> nth_error xs i = Some m ->
  PrimFloat.is_nan m = false -> first_largest xs i m.
Proof.
  intros Hi Hm Hnan.
  destruct (np_argmax_Ok xs i Hi) as (m' & Hm' & Hmax).
  assert (m' = m) by congruence. subst m'.
  destruct (Hmax Hnan) as [Hall Hfirst].
  rewrite List.Forall_forall in Hall.
  split; [exact Hm | split; [exact Hall | exact Hfirst]].
Qed.

(** C1. A detection line is printed in a cycle if and only if the largest
    score of the prediction (the first one, if several are equal) stands at
    the index of the class ["bell"] and is above 0.9; the confidence
    printed is that score.  Every other cycle prints nothing or raises.
    With "bell" the largest, 0.95 prints the detection and 0.85 prints
    nothing; with "background" the largest, or equal, a bell score of 0.95
    prints nothing. *)
Theorem decision_rule :
  (forall (prediction : list (list float)) (conf : float),
      decision prediction = Ok [BellDetected conf] <->
      exists class_idx row label,
        first_largest (concat prediction) class_idx conf /\
        index prediction 0%nat = Ok row /\
        index row class_idx = Ok conf /\
        index class_names class_idx = Ok label /\
        label = "bell"%string /\
        PrimFloat.ltb 0.9%float conf = true) /\
  (forall prediction : list (list float),
      (exists conf, decision prediction = Ok [BellDetected conf]) \/
      decision prediction = Ok [] \/
      (exists e, decision prediction = Raise e)) /\
  decision [[0.05; 0.95]%float] = Ok [BellDetected 0.95%float] /\
  decision [[0.15; 0.85]%float] = Ok [] /\
  decision [[0.97; 0.95]%float] = Ok [] /\
  decision [[0.95; 0.95]%float] = Ok [].
Proof.
  destruct decision_steps as [Hiff Hcases].
  split; [| split; [exact Hcases | repeat split]].
  intros prediction conf. rewrite Hiff. split.
  - intros (class_idx & row & label & Hidx & Hrow & Hc & Hlabel & El & Ec).
    exists class_idx, row, label.
    split; [| auto 10].
    apply argmax_first_largest; [exact Hidx | |].
    + unfold index in Hrow, Hc.
      destruct prediction as [|row0 more]; [discriminate |].
      cbn in Hrow. inversion Hrow; subst row0. cbn [concat].
      destruct (nth_error row class_idx) as [c|] eqn:E; [| discriminate].
      inversion Hc; subst c.
      rewrite nth_error_app1 by (apply nth_error_Some; congruence).
      exact E.
    + exact (proj2 (leb_not_nan _ _ (ltb_leb _ _ Ec))).
  - intros (class_idx & row & label & Hmax & Hrow & Hc & Hlabel & El & Ec).
    exists class_idx, row, label.
    split; [exact (first_largest_argmax _ _ _ Hmax) | auto 10].
Qed.

(** ** What the decision rule prints and raises *)

Lemma decision_lines (prediction : list (list float)) (lines : list output) :
  decision prediction = Ok lines ->
  lines = [] \/
  exists conf, lines = [BellDetected conf] /\
               PrimFloat.ltb 0.9%float conf = true /\
               exists row, nth_error prediction 0 = Some row /\
                           nth_error row 1 = Some conf /\
                           np_argmax (concat prediction) = Ok 1%nat.
Proof.
  unfold decision. intros H.
  apply bind_Ok in H as (class_idx & Hidx & H).
  apply bind_Ok in H as (row & Hrow & H).
  apply bind_Ok in H as (c & Hc & H).
  apply bind_Ok in H as (label & Hlabel & H).
  destruct (String.eqb label "bell") eqn:El; cbn in H;
    [| left; congruence].
  destruct (PrimFloat.ltb 0.9 c) eqn:Ec; [| left; congruence].
  right. exists c. split; [congruence | split; [exact Ec |]].
  apply String.eqb_eq in El.
  apply (label_is_bell class_idx label Hlabel) in El. subst class_idx.
  exists row. unfold index in Hrow, Hc.
  destruct (nth_error prediction 0) as [r|] eqn:E0; [| discriminate].
  destruct (nth_error row 1) as [c'|] eqn:E1; [| discriminate].
  inversion Hrow; inversion Hc; subst. auto.
Qed.

(** A detection is printed only for a confidence that is above 0.9, is the
    second entry of the prediction's first row, and is the largest entry of
    the whole prediction, strictly larger than the first. *)
Theorem detection_is_the_maximum (prediction : list (list float))
    (conf : float) :
  decision prediction = Ok [BellDetected conf] ->
  PrimFloat.ltb 0.9%float conf = true /\
  (exists row background,
      nth_error prediction 0 = Some row /\
      nth_error row 0 = Some background /\ nth_error row 1 = Some conf /\
      PrimFloat.ltb background conf = true) /\
  (forall row x, In row prediction -> In x row ->
                 PrimFloat.leb x conf = true).
Proof.
  intros H. apply decision_lines in H as [H | (c & Hc & Hgt & row & H0 & H1 & Harg)];
    [discriminate |].
  assert (c = conf) by congruence. subst c.
  destruct (np_argmax_Ok _ _ Harg) as (m & Hm & Hmax).
  destruct prediction as [|row0 more]; [discriminate |].
  cbn in H0. inversion H0; subst row0. cbn [concat] in Hm, Hmax.
  assert (Hl : (1 < length row)%nat) by (apply nth_error_Some; congruence).
  rewrite nth_error_app1 in Hm by exact Hl.
  assert (m = conf) by congruence. subst m.
  destruct (leb_not_nan _ _ (ltb_leb _ _ Hgt)) as [_ Hnan].
  destruct (Hmax Hnan) as [Hall Hfirst].
  split; [exact Hgt | split].
  - destruct row as [|b row']; [cbn in Hl; lia |].
    exists (b :: row'), b. repeat split; try assumption; try reflexivity.
    apply (Hfirst 0%nat b); [lia | reflexivity].
  - intros r x Hr Hx. rewrite List.Forall_forall in Hall. apply Hall.
    change (row ++ concat more) with (concat (row :: more)).
    apply in_concat. exists r. auto.
Qed.

Lemma detection_is_the_maximum_witness :
  decision [[0.05; 0.95]%float] = Ok [BellDetected 0.95%float] /\
  PrimFloat.ltb 0.9%float 0.95%float = true /\
  (exists row background,
      nth_error [[0.05; 0.95]%float] 0 = Some row /\
      nth_error row 0 = Some background /\
      nth_error row 1 = Some 0.95%float /\
      PrimFloat.ltb background 0.95%float = true) /\
  (forall row x, In row [[0.05; 0.95]%float] -> In x row ->
                 PrimFloat.leb x 0.95%float = true).
Proof.
  split; [reflexivity |].
  exact (detection_is_the_maximum [[0.05; 0.95]%float] 0.95%float eq_refl).
Defined.

(** When the model answers for one item: an empty answer makes the
    decision raise [ValueError]; an answer of one or two classes never
    raises; and whenever a class beyond the two of [class_names] has the
    largest score, the decision raises [IndexError]. *)
Theorem decision_errors (row : list float) :
  (row = [] -> decision [row] = Raise ValueError) /\
  (row <> [] -> (length row <= 2)%nat ->
   exists lines, decision [row] = Ok lines) /\
  (forall class_idx, np_argmax row = Ok class_idx -> (2 <= class_idx)%nat ->
                     decision [row] = Raise IndexError).
Proof.
  split; [intros ->; reflexivity | split].
  - intros Hne Hlen.
    destruct row as [|x [|y [|z r]]]; [congruence | | | cbn in Hlen; lia];
      unfold decision, np_argmax; cbn [concat app argmax_scan];
      repeat (match goal with
              | |- context [if ?b then _ else _] => destruct b
              end; cbn);
      eauto.
  - intros class_idx Hidx Hge. unfold decision. cbn [concat].
    rewrite app_nil_r, Hidx. cbn.
    destruct (index row class_idx) as [c|e] eqn:Hc; cbn.
    + destruct class_idx as [|[|[|k]]]; [lia | lia | reflexivity ..].
    + unfold index in Hc. destruct (nth_error row class_idx); congruence.
Qed.

(** ** What the program prints *)

(** The lines printed so far: the opening line, one line per detection,
    each above the threshold, and the closing line exactly when the loop
    was left through Ctrl+C; no more detections than chunks processed. *)
Definition transcript_ok (s : state) : Prop :=
  exists confs : list float,
    printed s
    = Listening :: map BellDetected confs
      ++ match st_phase s with Stopped => [StoppedMsg] | _ => [] end /\
    Forall (fun c => PrimFloat.ltb 0.9%float c = true) confs /\
    (length confs <= length (delivered s))%nat.

Lemma step_transcript (mfcc : mfcc_fn) (model : model_fn) (s : state)
    (r : read_outcome) :
  transcript_ok s -> transcript_ok (step mfcc model s r).
Proof.
  intros H. unfold step. destruct (st_phase s) eqn:E; [| exact H | exact H].
  destruct H as (confs & Hp & Hc & Hn). rewrite E, app_nil_r in Hp.
  assert (Hleave : forall e s', printed s' = printed s ->
                     (length (delivered s) <= length (delivered s'))%nat ->
                     transcript_ok (leave_loop e s')).
  { intros e s' Hp' Hd'. exists confs. destruct e; cbn [leave_loop];
      cbn [printed st_phase delivered]; rewrite Hp', Hp;
      rewrite ?app_nil_r; repeat split; auto; lia. }
  unfold cycle. destruct r as [raw|e]; [| apply Hleave; auto].
  destruct (frombuffer_int16 raw) as [chunk|e]; [| apply Hleave; auto].
  unfold process_and_predict.
  destruct (predict model (process_audio mfcc chunk)) as [prediction|e];
    cbn [mbind result_bind];
    [| apply Hleave; cbn; [reflexivity | rewrite length_app; lia]].
  destruct (decision prediction) as [lines|e] eqn:Hd;
    [| apply Hleave; cbn; [reflexivity | rewrite length_app; lia]].
  apply decision_lines in Hd as [-> | (c & -> & Hgt & _)].
  - exists confs. cbn. rewrite E, !app_nil_r, length_app.
    repeat split; auto. lia.
  - exists (confs ++ [c]). cbn. rewrite E, app_nil_r, Hp, map_app.
    rewrite !length_app. cbn. repeat split.
    + apply Forall_app. split; [exact Hc | repeat constructor; exact Hgt].
    + lia.
Qed.

(** Whatever the stream and the classifier do, the program prints the
    opening line, then one line per detection, each with a confidence above
    0.9 and never more of them than chunks were processed, and the closing
    line last, exactly when Ctrl+C ended the loop. *)
Theorem transcript (mfcc : mfcc_fn) (model : model_fn)
    (reads : list read_outcome) :
  exists confs : list float,
    printed (run mfcc model initial reads)
    = Listening :: map BellDetected confs
      ++ match st_phase (run mfcc model initial reads) with
         | Stopped => [StoppedMsg]
         | _ => []
         end /\
    Forall (fun c => PrimFloat.ltb 0.9%float c = true) confs /\
    (length confs <= length (delivered (run mfcc model initial reads)))%nat.
Proof.
  change (transcript_ok (run mfcc model initial reads)).
  assert (H : transcript_ok initial).
  { exists []. cbn. repeat split; [constructor | lia]. }
  revert H. generalize initial. unfold run.
  induction reads as [|r reads IH]; intros s H; [exact H |].
  cbn [fold_left]. apply IH, step_transcript, H.
Qed.

(** ** Normalisation *)

(** Scaling an amplitude back gives the sample. *)
Definition denormalize (a : float) : result Z :=
  py_int (PrimFloat.mul a 32768.0%float).

Definition normalize_exact (x : Z) : bool :=
  match denormalize (normalize x) with
  | Ok y => Z.eqb y x
  | Raise _ => false
  end.

Lemma normalize_exact_all :
  forallb normalize_exact (Z_range (-32768) (Z.to_nat 65536)) = true.
Proof. vm_compute. reflexivity. Qed.

(** The normalisation of [process_audio] loses nothing: multiplying the
    amplitude of a 16-bit sample by 32768 gives the sample back, exactly;
    so distinct samples have distinct amplitudes. *)
Theorem normalize_round_trip (x y : Z) :
  is_int16 x -> is_int16 y ->
  denormalize (normalize x) = Ok x /\
  (normalize x = normalize y -> x = y).
Proof.
  assert (H : forall z, is_int16 z -> denormalize (normalize z) = Ok z).
  { intros z Hz. pose proof normalize_exact_all as Hall.
    rewrite forallb_forall in Hall.
    assert (Hin : In z (Z_range (-32768) (Z.to_nat 65536)))
      by (apply Z_range_In; unfold is_int16 in Hz; lia).
    apply Hall in Hin. unfold normalize_exact in Hin.
    destruct (denormalize (normalize z)) as [w|e]; [| discriminate].
    apply Z.eqb_eq in Hin. now subst w. }
  intros Hx Hy. split; [now apply H |].
  intros E. pose proof (H x Hx) as Ex. pose proof (H y Hy) as Ey.
  rewrite E in Ex. congruence.
Qed.

Lemma normalize_round_trip_witness :
  is_int16 (-32768) /\ is_int16 32767 /\
  denormalize (normalize (-32768)) = Ok (-32768) /\
  (normalize (-32768) = normalize 32767 -> -32768 = 32767).
Proof.
  assert (Hx : is_int16 (-32768)) by (unfold is_int16; lia).
  assert (Hy : is_int16 32767) by (unfold is_int16; lia).
  split; [exact Hx | split; [exact Hy |]].
  exact (normalize_round_trip (-32768) 32767 Hx Hy).
Defined.

(** ** Training-time extraction: what of the signal counts *)

Lemma firstn_repeat {A : Type} (x : A) (n m : nat) :
  firstn n (repeat x m) = repeat x (Nat.min n m).
Proof.
  revert m. induction n as [|n IH]; intros [|m]; cbn; try reflexivity.
  now rewrite IH.
Qed.

Lemma pad_or_trim_firstn (audio : list float) :
  pad_or_trim audio
  = firstn (Z.to_nat SAMPLES_PER_CHUNK)
           (audio ++ repeat 0%float (Z.to_nat SAMPLES_PER_CHUNK)).
Proof.
  unfold pad_or_trim, np_pad_end.
  destruct (Z.ltb_spec (Z.of_nat (length audio)) SAMPLES_PER_CHUNK) as [H|H].
  - rewrite firstn_app.
    rewrite firstn_all2 by lia. f_equal.
    rewrite firstn_repeat. f_equal. lia.
  - rewrite firstn_app.
    replace (Z.to_nat SAMPLES_PER_CHUNK - length audio)%nat with 0%nat by lia.
    cbn. now rewrite app_nil_r.
Qed.

(** [extract_features] looks at the first second only, and silence at the
    end makes no difference: a signal cut after its first 22050 samples, or
    followed by any number of zeros, gives the same features. *)
Theorem extract_features_first_second (mfcc : mfcc_fn) (audio : list float)
    (k : nat) :
  extract_features_default mfcc (firstn (Z.to_nat SAMPLES_PER_CHUNK) audio)
  = extract_features_default mfcc audio /\
  extract_features_default mfcc (audio ++ repeat 0%float k)
  = extract_features_default mfcc audio.
Proof.
  rewrite !extract_features_default_eq.
  assert (H1 : pad_or_trim (firstn (Z.to_nat SAMPLES_PER_CHUNK) audio)
               = pad_or_trim audio).
  { rewrite !pad_or_trim_firstn.
    set (n := Z.to_nat SAMPLES_PER_CHUNK).
    destruct (Nat.le_gt_cases n (length audio)) as [Hl|Hl].
    - rewrite !firstn_app, firstn_firstn, Nat.min_id.
      rewrite length_firstn.
      replace (n - Nat.min n (length audio))%nat with 0%nat by lia.
      replace (n - length audio)%nat with 0%nat by lia. reflexivity.
    - now rewrite (firstn_all2 audio) by lia. }
  assert (H2 : pad_or_trim (audio ++ repeat 0%float k) = pad_or_trim audio).
  { rewrite !pad_or_trim_firstn.
    set (n := Z.to_nat SAMPLES_PER_CHUNK).
    rewrite <- app_assoc, <- repeat_app.
    rewrite !firstn_app, !firstn_repeat. f_equal. f_equal. lia. }
  now rewrite H1, H2.
Qed.

(** ** Decoding the buffer *)

Lemma byte_to_N_inj (a b : Byte.byte) : Byte.to_N a = Byte.to_N b -> a = b.
Proof.
  intros H. pose proof (Byte.of_to_N a) as Ha. pose proof (Byte.of_to_N b) as Hb.
  rewrite H in Ha. congruence.
Qed.

Lemma int16_of_bytes_inj (lo hi lo' hi' : Byte.byte) :
  int16_of_bytes lo hi = int16_of_bytes lo' hi' -> lo = lo' /\ hi = hi'.
Proof.
  unfold int16_of_bytes. intros H.
  pose proof (Byte.to_N_bounded lo). pose proof (Byte.to_N_bounded hi).
  pose proof (Byte.to_N_bounded lo'). pose proof (Byte.to_N_bounded hi').
  assert (Z.of_N (Byte.to_N lo) = Z.of_N (Byte.to_N lo') /\
          Z.of_N (Byte.to_N hi) = Z.of_N (Byte.to_N hi')) as [Hl Hh].
  { destruct (Z.ltb_spec (Z.of_N (Byte.to_N lo)
                          + 256 * Z.of_N (Byte.to_N hi)) 32768),
             (Z.ltb_spec (Z.of_N (Byte.to_N lo')
                          + 256 * Z.of_N (Byte.to_N hi')) 32768); lia. }
  split; apply byte_to_N_inj; lia.
Qed.


(** ** The order in which chunks are processed *)

(** The chunks that the buffers of a stream decode to, in order. *)
Fixpoint chunks_of (reads : list read_outcome) : list (list Z) :=
  match reads with
  | [] => []
  | ReadData raw :: rest =>
      match frombuffer_int16 raw with
      | Ok chunk => chunk :: chunks_of rest
      | Raise _ => chunks_of rest
      end
  | ReadRaises _ :: rest => chunks_of rest
  end.

Lemma chunks_of_cons (r : read_outcome) (reads : list read_outcome) :
  chunks_of (r :: reads) = chunks_of [r] ++ chunks_of reads.
Proof.
  cbn [chunks_of].
  destruct r as [raw|e]; [destruct (frombuffer_int16 raw) |]; reflexivity.
Qed.

(** In the loop, a step hands over the chunk of its read, if there is
    one, and stays in the loop only if there was one. *)
Lemma step_chunks (mfcc : mfcc_fn) (model : model_fn) (s : state)
    (r : read_outcome) :
  st_phase s = Running ->
  delivered (step mfcc model s r) = delivered s ++ chunks_of [r] /\
  (st_phase (step mfcc model s r) = Running -> length (chunks_of [r]) = 1%nat).
Proof.
  intros Hrun. unfold step. rewrite Hrun. unfold cycle.
  cbn [chunks_of]. destruct r as [raw|e].
  - destruct (frombuffer_int16 raw) as [chunk|e].
    + destruct (process_and_predict mfcc model chunk) as [lines|e].
      * cbn. auto.
      * rewrite leave_loop_delivered. cbn. auto.
    + rewrite leave_loop_delivered, app_nil_r. split; [reflexivity |].
      intros H. exfalso. revert H. apply leave_loop_phase.
  - rewrite leave_loop_delivered, app_nil_r. split; [reflexivity |].
    intros H. exfalso. revert H. apply leave_loop_phase.
Qed.

Lemma run_delivered_prefix (mfcc : mfcc_fn) (model : model_fn)
    (reads : list read_outcome) :
  forall s : state,
    exists done : list (list Z),
      delivered (run mfcc model s reads) = delivered s ++ done /\
      done `prefix_of` chunks_of reads /\
      (st_phase (run mfcc model s reads) = Running ->
       done = chunks_of reads /\ length done = length reads).
Proof.
  induction reads as [|r reads IH]; intros s.
  - exists []. cbn. rewrite app_nil_r. repeat split; auto.
  - rewrite run_cons, chunks_of_cons.
    destruct (st_phase s) eqn:Ephase.
    + destruct (step_chunks mfcc model s r Ephase) as [Hstep Hone].
      destruct (IH (step mfcc model s r)) as (done & Hd & Hp & Hrun).
      exists (chunks_of [r] ++ done).
      rewrite Hd, Hstep, <- app_assoc. split; [reflexivity |].
      split; [now apply prefix_app |].
      intros Hr. destruct (Hrun Hr) as [-> Hl].
      split; [reflexivity |].
      rewrite length_app, Hl. cbn [length].
      rewrite Hone; [lia |].
      destruct (st_phase (step mfcc model s r)) eqn:E'; [reflexivity | |];
        rewrite run_outside_loop in Hr by (rewrite E'; discriminate);
        congruence.
    + assert (Hs : step mfcc model s r = s)
        by (unfold step; now rewrite Ephase).
      rewrite Hs, run_outside_loop by (rewrite Ephase; discriminate).
      exists []. rewrite app_nil_r. split; [reflexivity |].
      split; [apply prefix_nil | intros Hr; congruence].
    + assert (Hs : step mfcc model s r = s)
        by (unfold step; now rewrite Ephase).
      rewrite Hs, run_outside_loop by (rewrite Ephase; discriminate).
      exists []. rewrite app_nil_r. split; [reflexivity |].
      split; [apply prefix_nil | intros Hr; congruence].
Qed.

(** The chunks are processed in the order in which they are read, each
    once and none skipped: what was handed to [process_audio] is always a
    prefix of what the stream's buffers decode to, and all of it as long as
    the loop is still running, in which case every read returned a buffer
    that was decoded. *)
Theorem chunks_in_order (mfcc : mfcc_fn) (model : model_fn)
    (reads : list read_outcome) :
  delivered (run mfcc model initial reads) `prefix_of` chunks_of reads /\
  (st_phase (run mfcc model initial reads) = Running ->
   delivered (run mfcc model initial reads) = chunks_of reads /\
   length (chunks_of reads) = length reads).
Proof.
  destruct (run_delivered_prefix mfcc model reads initial)
    as (done & Hd & Hp & Hrun).
  cbn [delivered initial app] in Hd. rewrite Hd.
  split; [exact Hp |]. intros Hr. destruct (Hrun Hr) as [E Hl].
  split; [exact E | now rewrite <- E].
Qed.

(** ** The stream and the chunks *)

Lemma take_reads_spec (k fuel : nat) :
  forall (pending : list Byte.byte) (rs : list read_outcome)
         (rest : list Byte.byte),
    take_reads fuel k pending = (rs, rest) ->
    Forall (read_of_size k) rs /\ flat_map read_bytes rs ++ rest = pending.
Proof.
  induction fuel as [|fuel IH]; intros pending rs rest H; cbn [take_reads] in H.
  - inversion H; subst. split; [constructor | reflexivity].
  - destruct (k <=? length pending)%nat eqn:Ek.
    + destruct (take_reads fuel k (skipn k pending)) as [rs' rest'] eqn:E.
      inversion H; subst rs rest; clear H.
      destruct (IH _ _ _ E) as [Hrs Hcat]. apply Nat.leb_le in Ek. split.
      * constructor; [| exact Hrs]. cbn [read_of_size].
        rewrite length_firstn. lia.
      * cbn [flat_map read_bytes]. rewrite <- app_assoc, Hcat.
        apply firstn_skipn.
    + inversion H; subst. split; [constructor | reflexivity].
Qed.

(** Whatever the device hands over and in whatever pieces, every read that
    returns gives [k] bytes, and the reads give the captured bytes in
    order, without a gap. *)
Lemma reads_of_spec (k : nat) (events : list device_event) :
  forall pending : list Byte.byte,
    Forall (read_of_size k) (reads_of k pending events) /\
    flat_map read_bytes (reads_of k pending events)
      `prefix_of` pending ++ captured events.
Proof.
  induction events as [|ev events IH]; intros pending; cbn [reads_of].
  - split; [constructor | apply prefix_nil].
  - destruct ev as [data | | e].
    + destruct (take_reads (length (pending ++ data)) k (pending ++ data))
        as [rs pending'] eqn:E.
      destruct (take_reads_spec _ _ _ _ _ E) as [Hrs Hcat].
      destruct (IH pending') as [Hrest Hpre]. split.
      * apply Forall_app. split; assumption.
      * rewrite flat_map_app. cbn [captured flat_map].
        fold (captured events).
        rewrite (app_assoc pending data), <- Hcat, <- app_assoc.
        now apply prefix_app.
    + destruct (IH pending) as [Hrest Hpre]. split.
      * constructor; [exact I | exact Hrest].
      * cbn [flat_map read_bytes captured app]. exact Hpre.
    + destruct (IH pending) as [Hrest Hpre]. split.
      * constructor; [exact I | exact Hrest].
      * cbn [flat_map read_bytes captured app]. exact Hpre.
Qed.

(** The read of line 40 asks for 22050 frames of 2 bytes. *)
Lemma read_size_of_stream :
  Z.of_nat (Z.to_nat SAMPLES_PER_CHUNK * bytes_per_frame stream)
  = 2 * SAMPLES_PER_CHUNK.
Proof.
  unfold bytes_per_frame. cbn [stream format channels get_sample_size].
  unfold SAMPLES_PER_CHUNK. lia.
Qed.

Lemma stream_reads_contract (events : list device_event) :
  Forall (read_contract SAMPLES_PER_CHUNK)
         (stream_reads stream SAMPLES_PER_CHUNK events).
Proof.
  unfold stream_reads.
  destruct (reads_of_spec (Z.to_nat SAMPLES_PER_CHUNK * bytes_per_frame stream)
                          events []) as [H _].
  eapply List.Forall_impl; [| exact H].
  intros [raw|e] Hr; cbn [read_contract read_of_size] in *; [| exact I].
  rewrite Hr. apply read_size_of_stream.
Qed.

(** The bytes of a decoded buffer are the buffer. *)
Lemma tobytes_frombuffer (raw : list Byte.byte) (chunk : list Z) :
  frombuffer_int16 raw = Ok chunk -> tobytes chunk = raw.
Proof.
  revert chunk. induction raw as [| b | lo hi rest IH] using buffer_ind;
    intros chunk H.
  - inversion H. reflexivity.
  - discriminate.
  - cbn [frombuffer_int16] in H. apply bind_Ok in H as (xs & Hxs & H).
    inversion H; subst chunk; clear H.
    change (tobytes (int16_of_bytes lo hi :: xs))
      with ([byte_of_Z (int16_of_bytes lo hi);
             byte_of_Z ((int16_of_bytes lo hi mod 65536) / 256)]
            ++ tobytes xs).
    rewrite (IH xs Hxs).
    pose proof (int16_of_bytes_tobytes (int16_of_bytes lo hi)
                  (int16_of_bytes_range lo hi)) as E.
    apply int16_of_bytes_inj in E as [-> ->]. reflexivity.
Qed.

Lemma tobytes_chunks_of (k : nat) (reads : list read_outcome) :
  Nat.Even k -> Forall (read_of_size k) reads ->
  tobytes (concat (chunks_of reads)) = flat_map read_bytes reads.
Proof.
  intros [half Hk]. induction reads as [|r reads IH]; intros H;
    [reflexivity |].
  inversion H as [|r' reads' Hr Hrest]; subst.
  destruct r as [raw|e]; cbn [chunks_of flat_map read_bytes].
  - destruct (frombuffer_int16 raw) as [chunk|e] eqn:E.
    + cbn [concat]. unfold tobytes in *. rewrite flat_map_app.
      fold (tobytes chunk). rewrite (tobytes_frombuffer raw chunk E).
      f_equal. now apply IH.
    + exfalso. cbn [read_of_size] in Hr.
      destruct (frombuffer_int16_even raw half) as [chunk Hc];
        [congruence | congruence].
  - cbn [app]. now apply IH.
Qed.

(** C9. The chunk size is [int(22050 * 1.0) = 22050], and the stream is
    opened for one channel of 16-bit samples and read 22050 frames at a
    time.  So whatever the device captures and in whatever pieces it hands
    it over, every chunk that reaches [process_audio], in every cycle, is a
    sequence of exactly 22050 signed 16-bit samples, and the chunks are
    the captured audio in order, with no gap and nothing read twice. *)
Theorem delivered_chunks_are_full (mfcc : mfcc_fn) (model : model_fn)
    (events : list device_event) :
  int_rate_times_duration = Ok 22050 /\
  SAMPLES_PER_CHUNK = 22050 /\
  Forall (fun chunk => Z.of_nat (length chunk) = 22050 /\
                       Forall (fun x => -32768 <= x <= 32767) chunk)
         (delivered (detector mfcc model events)) /\
  tobytes (concat (delivered (detector mfcc model events)))
    `prefix_of` captured events.
Proof.
  split; [exact py_int_limit_default | split; [reflexivity |]].
  unfold detector. split.
  - apply (run_delivered mfcc model _ initial (stream_reads_contract events)).
    constructor.
  - destruct (run_delivered_prefix mfcc model
                (stream_reads stream SAMPLES_PER_CHUNK events) initial)
      as (done & Hd & [rest Hp] & _).
    cbn [delivered initial app] in Hd. rewrite Hd.
    unfold stream_reads in *.
    destruct (reads_of_spec
                (Z.to_nat SAMPLES_PER_CHUNK * bytes_per_frame stream)
                events []) as [Hsize Hpre].
    cbn [app] in Hpre.
    rewrite <- (tobytes_chunks_of _ _ (ex_intro _ (Z.to_nat SAMPLES_PER_CHUNK)
                                         (Nat.mul_comm _ 2)) Hsize) in Hpre.
    rewrite Hp, concat_app in Hpre. unfold tobytes in *.
    rewrite flat_map_app in Hpre.
    eapply PreOrder_Transitive; [| exact Hpre]. now apply prefix_app_r.
Qed.

(** Two seconds of audio, handed over in pieces of 1024 frames, then
    Ctrl+C. *)
Example two_seconds_in_packets :
  length (delivered (detector probe_mfcc stub_model
                       (packets 100 2048 (tobytes (sawtooth_chunk ++ loud_chunk))
                        ++ [CtrlC]))) = 2%nat /\
  st_phase (detector probe_mfcc stub_model
              (packets 100 2048 (tobytes (sawtooth_chunk ++ loud_chunk))
               ++ [CtrlC])) = Stopped.
Proof. split; vm_compute; reflexivity. Qed.

(** ** The training set *)

Definition string_le (a b : string) : Prop := String.leb a b = true.

Lemma ltb_string_le (x y : string) : String.ltb x y = true -> string_le x y.
Proof.
  unfold String.ltb, string_le, String.leb.
  destruct (String.compare x y); congruence.
Qed.

Lemma not_ltb_string_le (x y : string) :
  String.ltb x y = false -> string_le y x.
Proof.
  unfold String.ltb, string_le, String.leb.
  rewrite (String.compare_antisym y x).
  destruct (String.compare x y); cbn; congruence.
Qed.

Lemma insert_sorted_perm (x : string) (l : list string) :
  Permutation (insert_sorted x l) (x :: l).
Proof.
  induction l as [|y l IH]; cbn; [reflexivity |].
  destruct (String.ltb x y); [reflexivity |].
  rewrite IH. apply perm_swap.
Qed.

Lemma insert_sorted_Sorted (x : string) (l : list string) :
  Sorted string_le l -> Sorted string_le (insert_sorted x l).
Proof.
  induction l as [|y l IH]; intros H; cbn.
  - repeat constructor.
  - destruct (String.ltb x y) eqn:E.
    + constructor; [exact H |]. constructor. now apply ltb_string_le.
    + inversion H as [|? ? Hs Hh]; subst.
      constructor; [now apply IH |].
      destruct l as [|z l]; cbn.
      * constructor. now apply not_ltb_string_le.
      * destruct (String.ltb x z); constructor.
        -- now apply not_ltb_string_le.
        -- now inversion Hh.
Qed.

Lemma sorted_spec (l : list string) :
  Permutation (sorted l) l /\ Sorted string_le (sorted l).
Proof.
  unfold sorted.
  assert (H : forall acc, Sorted string_le acc ->
                Permutation (fold_left (fun a x => insert_sorted x a) l acc)
                            (l ++ acc) /\
                Sorted string_le
                       (fold_left (fun a x => insert_sorted x a) l acc)).
  { induction l as [|x l IH]; intros acc Hacc; cbn; [split; auto |].
    destruct (IH (insert_sorted x acc)) as [Hp Hs];
      [now apply insert_sorted_Sorted |].
    split; [| exact Hs].
    rewrite Hp, insert_sorted_perm. symmetry. apply Permutation_middle. }
  destruct (H []) as [Hp Hs]; [constructor |].
  rewrite app_nil_r in Hp. auto.
Qed.

(** The features of one class directory all have the training shape. *)
Lemma class_features_shape (mfcc : mfcc_fn) (files : list (string * audio_entry))
    (feats : list matrix) :
  mfcc_shape_law mfcc ->
  class_features mfcc files = Ok feats ->
  Forall (fun m => shape m = (44%nat, 13%nat)) feats.
Proof.
  intros Hlaw. revert feats.
  induction files as [|[file e] files IH]; intros feats H; cbn in H.
  - inversion H. constructor.
  - destruct (endswith file ".wav"); [| now apply IH].
    apply bind_Ok in H as (m & Hm & H).
    apply bind_Ok in H as (more & Hmore & H).
    inversion H; subst feats. constructor; [| now apply IH].
    destruct e as [load|]; cbn in Hm; [| discriminate].
    apply bind_Ok in Hm as (audio & _ & Hm).
    rewrite extract_features_default_eq in Hm. inversion Hm.
    now apply training_shape.
Qed.

Lemma collect_spec (mfcc : mfcc_fn) (listing : data_dir) (names : list string) :
  forall (label_idx : nat) (X : list matrix) (y : list nat),
    collect mfcc listing label_idx names = Ok (X, y) ->
    length X = length y /\
    Forall (fun l => (label_idx <= l < label_idx + length names)%nat) y /\
    Sorted le y /\
    (mfcc_shape_law mfcc ->
     Forall (fun m => shape m = (44%nat, 13%nat)) X).
Proof.
  induction names as [|name names IH]; intros label_idx X y H; cbn in H.
  - inversion H. repeat split; constructor.
  - apply bind_Ok in H as (class_dir & _ & H).
    apply bind_Ok in H as (files & _ & H).
    apply bind_Ok in H as (feats & Hfeats & H).
    apply bind_Ok in H as ([X' y'] & Hmore & H).
    inversion H; subst X y; clear H. cbn [fst snd].
    destruct (IH _ _ _ Hmore) as (Hlen & Hrange & Hsorted & Hshape).
    split; [| split; [| split]].
    + rewrite !length_app, repeat_length. lia.
    + apply Forall_app. split.
      * apply List.Forall_forall. intros l Hl. apply repeat_spec in Hl.
        subst l. cbn [length]. lia.
      * eapply List.Forall_impl; [| exact Hrange]. cbn. intros l Hl. lia.
    + clear - Hrange Hsorted. induction (length feats) as [|n IHn]; cbn.
      * exact Hsorted.
      * constructor; [exact IHn |].
        destruct n; cbn.
        -- destruct y' as [|l y']; constructor.
           inversion Hrange; subst. lia.
        -- constructor. lia.
    + intros Hlaw. apply Forall_app. split.
      * now apply (class_features_shape mfcc files).
      * now apply Hshape.
Qed.

Lemma np_array_same_shape (features : list matrix) (sh : nat * nat) :
  Forall (fun m => shape m = sh) features -> np_array features = Ok features.
Proof.
  intros H. destruct features as [|m0 rest]; [reflexivity |].
  unfold np_array.
  replace (forallb (fun m => shape_eqb (shape m) (shape m0)) (m0 :: rest))
    with true; [reflexivity |].
  symmetry. apply forallb_forall. intros m Hm.
  rewrite List.Forall_forall in H.
  rewrite (H m Hm), (H m0 (or_introl eq_refl)).
  unfold shape_eqb. now rewrite !Nat.eqb_refl.
Qed.

Lemma np_array_Ok (features X : list matrix) :
  np_array features = Ok X -> X = features.
Proof.
  unfold np_array. destruct features as [|m0 rest]; [congruence |].
  destruct (forallb _ _); congruence.
Qed.

(** [prepare_dataset] returns the class names in ascending order, one label
    per feature matrix, every label an index into the class names, the
    labels in ascending order, and (with librosa's shape contract) every
    feature matrix of 44 frames by 13 coefficients. *)
Theorem prepare_dataset_spec (mfcc : mfcc_fn) (data_path : data_dir)
    (X : list matrix) (y : list nat) (class_names : list string) :
  mfcc_shape_law mfcc ->
  prepare_dataset mfcc data_path = Ok (X, y, class_names) ->
  Permutation class_names (map fst data_path) /\
  Sorted (fun a b => String.leb a b = true) class_names /\
  length X = length y /\
  Forall (fun label => (label < length class_names)%nat) y /\
  Sorted le y /\
  Forall (fun m => shape m = (44%nat, 13%nat)) X.
Proof.
  intros Hlaw H. unfold prepare_dataset in H.
  apply bind_Ok in H as ([X' y'] & Hc & H).
  apply bind_Ok in H as (X'' & Hx & H).
  inversion H; subst X'' y class_names; clear H. cbn [fst snd] in *.
  apply np_array_Ok in Hx. subst X.
  destruct (sorted_spec (map fst data_path)) as [Hperm Hsorted].
  destruct (collect_spec mfcc data_path _ _ _ _ Hc)
    as (Hlen & Hrange & Hy & Hshape).
  repeat split; auto.
  eapply List.Forall_impl; [| exact Hrange]. cbn. intros l Hl. lia.
Qed.

(** A data set of two classes; the notes are no [.wav] file, and reading
    them as audio would fail. *)
Definition sample_dataset : data_dir :=
  [ ("bell", ClassDirectory
               [ ("ring1.wav", AudioFile (Ok [0.5; 0.25]%float));
                 ("notes.txt", AudioFile (Raise ValueError));
                 ("ring2.wav", AudioFile (Ok [0.125]%float)) ]);
    ("background", ClassDirectory
                     [ ("street.wav", AudioFile (Ok [])) ]) ]%string.

(** The labels and class names of a result. *)
Definition labels_and_names
    (r : result (list matrix * list nat * list string))
  : option (list nat * list string) :=
  match r with
  | Ok (_, y, class_names) => Some (y, class_names)
  | Raise _ => None
  end.

Lemma sample_dataset_computed :
  labels_and_names (prepare_dataset probe_mfcc sample_dataset)
  = Some ([0; 1; 1]%nat, ["background"; "bell"]%string).
Proof. vm_compute. reflexivity. Qed.

Lemma sample_dataset_labels :
  exists X,
    prepare_dataset probe_mfcc sample_dataset
    = Ok (X, [0; 1; 1]%nat, ["background"; "bell"]%string).
Proof.
  pose proof sample_dataset_computed as H.
  destruct (prepare_dataset probe_mfcc sample_dataset)
    as [[[X y] names]|e]; cbn in H; [| discriminate].
  exists X. inversion H; subst. reflexivity.
Qed.

Lemma prepare_dataset_spec_witness :
  mfcc_shape_law probe_mfcc /\
  exists X,
    prepare_dataset probe_mfcc sample_dataset
    = Ok (X, [0; 1; 1]%nat, ["background"; "bell"]%string) /\
    Permutation ["background"; "bell"]%string (map fst sample_dataset) /\
    Sorted (fun a b => String.leb a b = true) ["background"; "bell"]%string /\
    length X = length [0; 1; 1]%nat /\
    Forall (fun label => (label < length ["background"; "bell"]%string)%nat)
           [0; 1; 1]%nat /\
    Sorted le [0; 1; 1]%nat /\
    Forall (fun m => shape m = (44%nat, 13%nat)) X.
Proof.
  split; [exact probe_mfcc_shape |].
  destruct sample_dataset_labels as [X HX]. exists X.
  split; [exact HX |].
  exact (prepare_dataset_spec probe_mfcc sample_dataset X [0; 1; 1]%nat
           ["background"; "bell"]%string probe_mfcc_shape HX).
Defined.

(** *** Entries that are no [.wav] file *)

(** The data directory with every entry of a class directory whose name
    does not end in [.wav] replaced by [other]. *)
Definition replace_others (other : audio_entry) (data_path : data_dir)
  : data_dir :=
  map (fun c =>
         (fst c,
          match snd c with
          | ClassDirectory files =>
              ClassDirectory
                (map (fun f => (fst f,
                                if endswith (fst f) ".wav" then snd f
                                else other)) files)
          | StrayFile => StrayFile
          end)) data_path.

Lemma class_features_replace (mfcc : mfcc_fn) (other : audio_entry)
    (files : list (string * audio_entry)) :
  class_features mfcc
    (map (fun f => (fst f, if endswith (fst f) ".wav" then snd f else other))
         files)
  = class_features mfcc files.
Proof.
  induction files as [|[file e] files IH]; [reflexivity |].
  cbn [map fst snd class_features].
  destruct (endswith file ".wav"); [| exact IH].
  now rewrite IH.
Qed.

Lemma child_replace (other : audio_entry) (listing : data_dir)
    (name : string) :
  child name (replace_others other listing)
  = match child name listing with
    | Ok (ClassDirectory files) =>
        Ok (ClassDirectory
              (map (fun f => (fst f, if endswith (fst f) ".wav" then snd f
                                     else other)) files))
    | Ok StrayFile => Ok StrayFile
    | Raise e => Raise e
    end.
Proof.
  unfold child, replace_others.
  induction listing as [|[n e] listing IH]; [reflexivity |].
  cbn [map List.find fst snd].
  destruct (String.eqb n name); [| exact IH].
  destruct e; reflexivity.
Qed.

Lemma collect_replace (mfcc : mfcc_fn) (other : audio_entry)
    (listing : data_dir) (names : list string) (label_idx : nat) :
  collect mfcc (replace_others other listing) label_idx names
  = collect mfcc listing label_idx names.
Proof.
  revert label_idx. induction names as [|name names IH]; intros label_idx;
    [reflexivity |].
  cbn [collect]. rewrite IH, child_replace.
  destruct (child name listing) as [[files|]|e]; cbn; [| reflexivity ..].
  now rewrite class_features_replace.
Qed.

(** Only the entries whose name ends in [.wav] (in lower case) are ever
    read: whatever the other entries of the class directories are, files
    that cannot be decoded or directories, the result is the same. *)
Theorem prepare_dataset_reads_wav_only (mfcc : mfcc_fn) (other : audio_entry)
    (data_path : data_dir) :
  prepare_dataset mfcc (replace_others other data_path)
  = prepare_dataset mfcc data_path /\
  endswith "RING.WAV" ".wav" = false /\
  endswith "wav" ".wav" = false /\
  endswith ".wav" ".wav" = true.
Proof.
  split; [| repeat split].
  unfold prepare_dataset. rewrite collect_replace.
  replace (map fst (replace_others other data_path)) with (map fst data_path);
    [reflexivity |].
  unfold replace_others. rewrite map_map. reflexivity.
Qed.

(** *** The class table of the detector *)

(** A data directory that holds the two classes of the detector, whatever
    the order in which the system lists them, gives the class names in the
    order of the detector's table: label 1 is the bell. *)
Theorem class_table_matches_detector (mfcc : mfcc_fn) (data_path : data_dir)
    (X : list matrix) (y : list nat) (names : list string) :
  Permutation (map fst data_path) ["bell"; "background"]%string ->
  prepare_dataset mfcc data_path = Ok (X, y, names) ->
  names = class_names /\ nth_error names 1 = Some "bell"%string.
Proof.
  intros Hperm H. unfold prepare_dataset in H.
  apply bind_Ok in H as (c & _ & H). apply bind_Ok in H as (X' & _ & H).
  inversion H; subst names; clear H.
  apply Permutation_sym, Permutation_length_2_inv in Hperm.
  destruct Hperm as [-> | ->]; split; reflexivity.
Qed.

Lemma class_table_matches_detector_witness :
  Permutation (map fst sample_dataset) ["bell"; "background"]%string /\
  exists X,
    prepare_dataset probe_mfcc sample_dataset
    = Ok (X, [0; 1; 1]%nat, ["background"; "bell"]%string) /\
    ["background"; "bell"]%string = class_names /\
    nth_error ["background"; "bell"]%string 1 = Some "bell"%string.
Proof.
  assert (Hp : Permutation (map fst sample_dataset)
                           ["bell"; "background"]%string)
    by (cbn; reflexivity).
  split; [exact Hp |].
  destruct sample_dataset_labels as [X HX]. exists X.
  split; [exact HX |].
  exact (class_table_matches_detector probe_mfcc sample_dataset X
           [0; 1; 1]%nat ["background"; "bell"]%string Hp HX).
Defined.

(** *** A data set without audio *)

Lemma child_In (name : string) (listing : data_dir) :
  In name (map fst listing) ->
  exists e, child name listing = Ok e /\ In (name, e) listing.
Proof.
  unfold child. intros Hin.
  destruct (List.find (fun c => String.eqb (fst c) name) listing)
    as [[n e]|] eqn:E.
  - apply find_some in E as [Hin' Heq]. cbn in Heq.
    apply String.eqb_eq in Heq. subst n. exists e. auto.
  - apply in_map_iff in Hin as ([n e] & Hn & Hin). cbn in Hn. subst n.
    apply (find_none _ _ E) in Hin. cbn in Hin.
    rewrite String.eqb_refl in Hin. discriminate.
Qed.

(** A class directory without a [.wav] name. *)
Definition no_wav (e : class_entry) : Prop :=
  exists files, e = ClassDirectory files /\
                Forall (fun f => endswith (fst f) ".wav" = false) files.

Lemma class_features_no_wav (mfcc : mfcc_fn)
    (files : list (string * audio_entry)) :
  Forall (fun f => endswith (fst f) ".wav" = false) files ->
  class_features mfcc files = Ok [].
Proof.
  induction 1 as [|[file e] files Hf _ IH]; [reflexivity |].
  cbn in Hf |- *. now rewrite Hf.
Qed.

Lemma collect_no_wav (mfcc : mfcc_fn) (listing : data_dir)
    (names : list string) (label_idx : nat) :
  Forall (fun c => no_wav (snd c)) listing ->
  (forall name, In name names -> In name (map fst listing)) ->
  collect mfcc listing label_idx names = Ok ([], []).
Proof.
  intros Hall. revert label_idx.
  induction names as [|name names IH]; intros label_idx Hnames;
    [reflexivity |].
  cbn [collect].
  destruct (child_In name listing) as (e & -> & Hin);
    [apply Hnames; now left |].
  rewrite List.Forall_forall in Hall.
  destruct (Hall _ Hin) as (files & He & Hfiles). cbn in He. subst e.
  cbn. rewrite (class_features_no_wav mfcc files Hfiles). cbn.
  rewrite IH by (intros n Hn; apply Hnames; now right).
  reflexivity.
Qed.

(** With no [.wav] file in any class directory (or no class directory at
    all) the training script ends with [IndexError], at [X[0]], before any
    network is built. *)
Theorem empty_dataset_raises (mfcc : mfcc_fn) (data_path : data_dir) :
  Forall (fun c => exists files,
              snd c = ClassDirectory files /\
              Forall (fun f => endswith (fst f) ".wav" = false) files)
         data_path ->
  prepare_dataset mfcc data_path = Ok ([], [], sorted (map fst data_path)) /\
  build_from_dataset mfcc data_path = Raise IndexError.
Proof.
  intros Hall.
  assert (H : prepare_dataset mfcc data_path
              = Ok ([], [], sorted (map fst data_path))).
  { unfold prepare_dataset.
    rewrite (collect_no_wav mfcc data_path); [reflexivity | exact Hall |].
    intros name Hin. destruct (sorted_spec (map fst data_path)) as [Hp _].
    now apply (Permutation_in _ Hp). }
  split; [exact H |]. unfold build_from_dataset. rewrite H. reflexivity.
Qed.

Lemma empty_dataset_raises_witness :
  Forall (fun c => exists files,
              snd c = ClassDirectory files /\
              Forall (fun f => endswith (fst f) ".wav" = false) files)
         [("bell"%string, ClassDirectory [("ring.mp3"%string, SubDirectory)])] /\
  prepare_dataset probe_mfcc
    [("bell"%string, ClassDirectory [("ring.mp3"%string, SubDirectory)])]
  = Ok ([], [], sorted (map fst
          [("bell"%string,
            ClassDirectory [("ring.mp3"%string, SubDirectory)])])) /\
  build_from_dataset probe_mfcc
    [("bell"%string, ClassDirectory [("ring.mp3"%string, SubDirectory)])]
  = Raise IndexError.
Proof.
  assert (H : Forall (fun c => exists files,
                snd c = ClassDirectory files /\
                Forall (fun f => endswith (fst f) ".wav" = false) files)
           [("bell"%string,
             ClassDirectory [("ring.mp3"%string, SubDirectory)])]).
  { constructor; [| constructor].
    eexists. split; [reflexivity |]. constructor; [reflexivity | constructor]. }
  split; [exact H |].
  exact (empty_dataset_raises probe_mfcc _ H).
Defined.

(** ** The network *)

Lemma create_model_shape_44_13 (num_classes : nat) :
  (0 < num_classes)%nat ->
  model_output (create_model (44, 13)%nat num_classes) [] = Ok [num_classes].
Proof.
  intros H. destruct num_classes as [|n]; [lia | reflexivity].
Qed.

(** For every input of at least 4 x 4, the layers of [create_model] fit
    one another: the two poolings leave [(t/2/2) * (f/2/2)] positions of 32
    channels for the dense layers; with at least one class the output has
    one score per class, and with none the last layer is refused. *)
Theorem create_model_shapes (t f num_classes : nat) :
  (4 <= t)%nat -> (4 <= f)%nat ->
  model_output (firstn 7 (create_model (t, f) num_classes)) []
  = Ok [(t / 2 / 2 * (f / 2 / 2 * (32 * 1)))%nat] /\
  ((0 < num_classes)%nat ->
   model_output (create_model (t, f) num_classes) [] = Ok [num_classes]) /\
  (num_classes = 0%nat ->
   model_output (create_model (t, f) num_classes) [] = Raise ValueError).
Proof.
  intros Ht Hf.
  assert (Ht2 : (2 <= t / 2)%nat) by (apply Nat.div_le_lower_bound; lia).
  assert (Hf2 : (2 <= f / 2)%nat) by (apply Nat.div_le_lower_bound; lia).
  assert (Hpool : forall h w : nat, (2 <= h)%nat -> (2 <= w)%nat ->
            (2 <=? h)%nat && (2 <=? w)%nat && (0 <? 2)%nat && (0 <? 2)%nat
            = true).
  { intros h w Hh Hw.
    apply Nat.leb_le in Hh. apply Nat.leb_le in Hw. now rewrite Hh, Hw. }
  unfold create_model. cbn [firstn fst snd model_output layer_output].
  cbn [mbind result_bind].
  replace (Nat.eqb (fold_right Nat.mul 1%nat [t; f; 1%nat])
                   (fold_right Nat.mul 1%nat [t; f]))
    with true by (symmetry; apply Nat.eqb_eq; cbn; lia).
  cbn [mbind result_bind model_output layer_output].
  change (0 <? 16)%nat with true. cbv iota.
  cbn [mbind result_bind model_output layer_output].
  rewrite (Hpool t f) by lia.
  cbn [mbind result_bind model_output layer_output].
  change (0 <? 32)%nat with true. cbv iota.
  cbn [mbind result_bind model_output layer_output].
  rewrite (Hpool (t / 2) (f / 2))%nat by assumption.
  cbn [mbind result_bind model_output layer_output fold_right].
  change (0 <? 32)%nat with true. cbv iota.
  cbn [mbind result_bind model_output layer_output removelast app].
  split; [reflexivity | split].
  - intros Hn. apply Nat.ltb_lt in Hn. rewrite Hn. reflexivity.
  - intros ->. reflexivity.
Qed.

Lemma create_model_shapes_witness :
  (4 <= 44)%nat /\ (4 <= 13)%nat /\
  model_output (firstn 7 (create_model (44, 13)%nat 2)) []
  = Ok [(44 / 2 / 2 * (13 / 2 / 2 * (32 * 1)))%nat] /\
  ((0 < 2)%nat ->
   model_output (create_model (44, 13)%nat 2) [] = Ok [2%nat]) /\
  (2%nat = 0%nat ->
   model_output (create_model (44, 13)%nat 2) [] = Raise ValueError).
Proof.
  assert (Ht : (4 <= 44)%nat) by lia.
  assert (Hf : (4 <= 13)%nat) by lia.
  split; [exact Ht | split; [exact Hf |]].
  exact (create_model_shapes 44 13 2 Ht Hf).
Defined.

(** Built from a data set, the network takes the 44 x 13 matrices that the
    live detector computes from a full chunk, and returns one score per
    class directory. *)
Theorem trained_network_fits_detector (mfcc : mfcc_fn) (data_path : data_dir)
    (layers : list layer) :
  mfcc_shape_law mfcc ->
  build_from_dataset mfcc data_path = Ok layers ->
  layers = create_model (44, 13)%nat (length data_path) /\
  model_output layers [] = Ok [length data_path] /\
  (forall audio_chunk : list Z,
      Z.of_nat (length audio_chunk) = SAMPLES_PER_CHUNK ->
      nth_error layers 0
      = Some (Input [fst (shape (process_audio mfcc audio_chunk));
                     snd (shape (process_audio mfcc audio_chunk))])).
Proof.
  intros Hlaw H.
  assert (Hclass : (0 < length data_path)%nat).
  { destruct data_path; [discriminate H | cbn [length]; lia]. }
  unfold build_from_dataset in H.
  apply bind_Ok in H as ([[X y] names] & Hd & H).
  apply bind_Ok in H as (x0 & Hx & H). cbn [fst snd] in *.
  inversion H; subst layers; clear H.
  destruct (sorted_spec (map fst data_path)) as [Hp _].
  assert (Hn : length names = length data_path).
  { unfold prepare_dataset in Hd.
    apply bind_Ok in Hd as (c & _ & Hd). apply bind_Ok in Hd as (X' & _ & Hd).
    inversion Hd; subst. rewrite (Permutation_length Hp). apply length_map. }
  assert (Hs : shape x0 = (44%nat, 13%nat)).
  { unfold prepare_dataset in Hd.
    apply bind_Ok in Hd as ([X1 y1] & Hc & Hd).
    apply bind_Ok in Hd as (X' & Hx' & Hd).
    inversion Hd; subst; clear Hd. cbn [fst] in Hx'.
    apply np_array_Ok in Hx'. subst X1.
    destruct (collect_spec mfcc data_path _ _ _ _ Hc) as (_ & _ & _ & Hshape).
    specialize (Hshape Hlaw). rewrite List.Forall_forall in Hshape.
    apply Hshape. unfold index in Hx.
    destruct (nth_error X 0) as [m|] eqn:E; [| discriminate].
    inversion Hx; subst. now apply nth_error_In in E. }
  rewrite Hs, Hn. split; [reflexivity | split].
  - apply create_model_shape_44_13, Hclass.
  - intros audio_chunk Hlen.
    rewrite (process_audio_shape mfcc Hlaw audio_chunk)
      by (now apply full_length_nonempty).
    replace (length audio_chunk) with (Z.to_nat 22050)
      by (unfold SAMPLES_PER_CHUNK in Hlen; lia).
    reflexivity.
Qed.

Definition is_ok {A : Type} (r : result A) : bool :=
  match r with
  | Ok _ => true
  | Raise _ => false
  end.

Lemma sample_dataset_builds :
  is_ok (build_from_dataset probe_mfcc sample_dataset) = true.
Proof. vm_compute. reflexivity. Qed.

Lemma trained_network_fits_detector_witness :
  mfcc_shape_law probe_mfcc /\
  exists layers,
    build_from_dataset probe_mfcc sample_dataset = Ok layers /\
    layers = create_model (44, 13)%nat (length sample_dataset) /\
    model_output layers [] = Ok [length sample_dataset] /\
    (forall audio_chunk : list Z,
        Z.of_nat (length audio_chunk) = SAMPLES_PER_CHUNK ->
        nth_error layers 0
        = Some (Input [fst (shape (process_audio probe_mfcc audio_chunk));
                       snd (shape (process_audio probe_mfcc audio_chunk))])).
Proof.
  split; [exact probe_mfcc_shape |].
  pose proof sample_dataset_builds as Hok.
  destruct (build_from_dataset probe_mfcc sample_dataset) as [layers|e] eqn:E;
    [| discriminate].
  exists layers. split; [reflexivity |].
  exact (trained_network_fits_detector probe_mfcc sample_dataset layers
           probe_mfcc_shape E).
Defined.

(** ** The upload service as a whole *)

(** [app = FastAPI()] starts from nothing: what was registered before it
    is not on the object that [app] names afterwards. *)
Lemma app_after_rebinding (before after : list statement) :
  app_after (before ++ NewApp :: after) = app_after (NewApp :: after).
Proof. unfold app_after. rewrite fold_left_app. reflexivity. Qed.

(** The application that [main.py] leaves in [app] answers one path
    operation only, [POST /upload-audio/] with the second [upload_audio]:
    the second [app = FastAPI()] (line 28) discards [read_root] and the
    first [upload_audio], which the application had until then. *)
Theorem served_application :
  (forall (m : http_method) (path : string) (e : endpoint),
      dispatch (app_after main_module) m path = Some e <->
      m = POST /\ path = "/upload-audio/"%string /\
      e = upload_audio_endpoint) /\
  dispatch (app_after main_module) GET "/" = None /\
  dispatch (app_after (firstn 3 main_module)) GET "/"
  = Some read_root_endpoint /\
  dispatch (app_after (firstn 3 main_module)) POST "/upload-audio/"
  = Some upload_audio_first_endpoint /\
  length (middleware (app_after main_module)) = 1%nat.
Proof.
  split; [| repeat split].
  intros m path e.
  change (app_after main_module)
    with (mkApp [mkRoute POST "/upload-audio/" upload_audio_endpoint]
                [mkCors ["*"%string] true ["*"%string] ["*"%string]]).
  unfold dispatch. cbn [routes List.find route_method route_path]. split.
  - destruct m; cbn [http_method_eqb andb]; [discriminate |].
    destruct (String.eqb "/upload-audio/" path) eqn:E; [| discriminate].
    apply String.eqb_eq in E. cbn. intros H. inversion H. auto.
  - intros (-> & -> & ->). reflexivity.
Qed.

(** The two versions of [upload_audio] do the same to the file system and
    fail alike; both answers carry the client's file name, the first with
    [status], the second with [message]. *)
Theorem upload_audio_versions (fs : filesystem) (f : UploadFile) :
  match upload_audio_first fs f, upload_audio fs f with
  | Ok (fs1, resp1), Ok (fs2, resp2) =>
      fs1 = fs2 /\
      json_get "filename" resp1 = Some (filename f) /\
      json_get "filename" resp2 = Some (filename f) /\
      json_get "status" resp1 = Some "success"%string /\
      json_get "message" resp1 = None /\
      json_get "status" resp2 = None /\
      json_get "message" resp2
      = Some "Audio file uploaded successfully!"%string
  | Raise e1, Raise e2 => e1 = e2
  | _, _ => False
  end.
Proof.
  unfold upload_audio_first, upload_audio.
  destruct (open_wb fs (file_location f)) as [fs1|e]; cbn;
    [repeat split | reflexivity].
Qed.

(** *** Plain file names *)

Lemma has_nul_file_location (name : string) :
  has_nul (UPLOAD_DIR +:+ "/" +:+ name) = has_nul name.
Proof. reflexivity. Qed.

Lemma length_file_location (name : string) :
  String.length (UPLOAD_DIR +:+ "/" +:+ name) = (8 + String.length name)%nat.
Proof. reflexivity. Qed.

(** With the uploads directory in place, [open] finds the place of a plain
    name in it. *)
Lemma open_target_plain_name (fs : filesystem) (name : string) :
  plain_name name ->
  cwd fs ++ [UPLOAD_DIR] ∈ dirs fs ->
  cwd fs ++ [UPLOAD_DIR; name] ∉ dirs fs ->
  open_target fs (UPLOAD_DIR +:+ "/" +:+ name)
  = Ok (cwd fs ++ [UPLOAD_DIR; name]).
Proof.
  intros (Hc & Hne & Hdot & Hdots & Hnul & Hlen) Hup Hdir.
  assert (E1 : String.eqb name EmptyString = false)
    by (now apply String.eqb_neq).
  assert (E2 : String.eqb name "." = false) by (now apply String.eqb_neq).
  assert (E3 : String.eqb name ".." = false) by (now apply String.eqb_neq).
  assert (E4 : (NAME_MAX <? String.length name)%nat = false)
    by (apply Nat.ltb_ge; exact Hlen).
  unfold open_target.
  rewrite has_nul_file_location, Hnul, length_file_location.
  replace (PATH_MAX <=? 8 + String.length name)%nat with false
    by (symmetry; apply Nat.leb_gt; unfold PATH_MAX, NAME_MAX in *; lia).
  change (String.prefix "/" (UPLOAD_DIR +:+ "/" +:+ name)) with false.
  change (components (UPLOAD_DIR +:+ "/" +:+ name))
    with ("uploads"%string :: components name).
  rewrite Hc. cbn [strip_trailing]. rewrite E1.
  cbn [removelast List.last length Nat.eqb negb walk].
  unfold walk_step at 1.
  change (String.eqb "uploads" EmptyString || String.eqb "uploads" ".")
    with false.
  change (String.eqb "uploads" "..") with false.
  change (NAME_MAX <? String.length "uploads")%nat with false.
  cbv iota.
  rewrite (bool_decide_eq_true_2 _ Hup).
  cbn [mbind result_bind]. rewrite E1, E2, E3, E4. cbn [orb].
  rewrite <- app_assoc. cbn [app].
  rewrite (bool_decide_eq_false_2 _ Hdir). reflexivity.
Qed.

Lemma makedirs_exist_ok_Ok (fs fs0 : filesystem) (path : string) :
  makedirs_exist_ok fs path = Ok fs0 ->
  fs0 = mkFs (cwd fs) ({[ cwd fs ++ [path] ]} ∪ dirs fs) (files fs) /\
  files fs !! (cwd fs ++ [path]) = None.
Proof.
  unfold makedirs_exist_ok. intros H.
  destruct (bool_decide (is_Some (files fs !! (cwd fs ++ [path])))) eqn:E;
    [discriminate |].
  apply bool_decide_eq_false in E. inversion H. split; [reflexivity |].
  destruct (files fs !! (cwd fs ++ [path])); [| reflexivity].
  exfalso. apply E. eauto.
Qed.

(** Once the module has made the uploads directory, an upload whose file
    name is one plain component (no separator, no NUL byte, at most 255
    bytes, not empty, not [.] or [..]) and does not name a directory there
    is not refused for its path: [open] finds its place in the uploads
    directory, under that name, and the bytes are stored there. *)
Theorem plain_upload_succeeds (fs fs0 : filesystem) (f : UploadFile) :
  makedirs_exist_ok fs UPLOAD_DIR = Ok fs0 ->
  plain_name (filename f) ->
  cwd fs0 ++ [UPLOAD_DIR; filename f] ∉ dirs fs0 ->
  exists (fs' : filesystem) (resp : json),
    upload_audio fs0 f = Ok (fs', resp) /\
    open_target fs0 (file_location f)
    = Ok (cwd fs0 ++ [UPLOAD_DIR; filename f]) /\
    inside_uploads fs0 (cwd fs0 ++ [UPLOAD_DIR; filename f]) /\
    files fs' !! (cwd fs0 ++ [UPLOAD_DIR; filename f]) = Some (file f).
Proof.
  intros Hmk Hplain Hdir.
  assert (Hup : cwd fs0 ++ [UPLOAD_DIR] ∈ dirs fs0).
  { apply makedirs_exist_ok_Ok in Hmk as [-> _]. cbn [cwd dirs].
    apply elem_of_union_l, elem_of_singleton. reflexivity. }
  pose proof (open_target_plain_name fs0 (filename f) Hplain Hup Hdir) as Ht.
  fold (file_location f) in Ht.
  unfold upload_audio, open_wb. rewrite Ht. cbn [mbind result_bind].
  eexists _, _. split; [reflexivity |].
  split; [reflexivity |].
  split; [eexists; reflexivity |].
  unfold copyfileobj.
  rewrite (open_target_dirs
             fs0 (mkFs (cwd fs0) (dirs fs0)
                       (<[cwd fs0 ++ [UPLOAD_DIR; filename f] := []]> (files fs0)))
             (file_location f) _ eq_refl eq_refl Ht).
  cbn [files]. rewrite !lookup_insert_eq. reflexivity.
Qed.

Lemma plain_upload_succeeds_witness :
  makedirs_exist_ok (mkFs ["srv"%string] ∅ ∅) UPLOAD_DIR
  = Ok (mkFs ["srv"%string] ({[ ["srv"; "uploads"]%string ]} ∪ ∅) ∅) /\
  plain_name "bell_01.wav" /\
  (["srv"; "uploads"; "bell_01.wav"]%string
     ∉ dirs (mkFs ["srv"%string] ({[ ["srv"; "uploads"]%string ]} ∪ ∅) ∅)) /\
  exists (fs' : filesystem) (resp : json),
    upload_audio (mkFs ["srv"%string] ({[ ["srv"; "uploads"]%string ]} ∪ ∅) ∅)
                 (mkUpload "bell_01.wav" new_bytes)
    = Ok (fs', resp) /\
    open_target (mkFs ["srv"%string] ({[ ["srv"; "uploads"]%string ]} ∪ ∅) ∅)
                (file_location (mkUpload "bell_01.wav" new_bytes))
    = Ok ["srv"; "uploads"; "bell_01.wav"]%string /\
    inside_uploads (mkFs ["srv"%string] ({[ ["srv"; "uploads"]%string ]} ∪ ∅) ∅)
                   ["srv"; "uploads"; "bell_01.wav"]%string /\
    files fs' !! ["srv"; "uploads"; "bell_01.wav"]%string = Some new_bytes.
Proof.
  assert (H1 : makedirs_exist_ok (mkFs ["srv"%string] ∅ ∅) UPLOAD_DIR
               = Ok (mkFs ["srv"%string]
                          ({[ ["srv"; "uploads"]%string ]} ∪ ∅) ∅))
    by reflexivity.
  assert (H2 : plain_name "bell_01.wav").
  { unfold plain_name, NAME_MAX.
    repeat split; try discriminate; try reflexivity. cbn. lia. }
  assert (H3 : ["srv"; "uploads"; "bell_01.wav"]%string
                 ∉ dirs (mkFs ["srv"%string]
                              ({[ ["srv"; "uploads"]%string ]} ∪ ∅) ∅)).
  { cbn [dirs]. intros Hin. apply elem_of_union in Hin as [Hin | Hin].
    - apply elem_of_singleton in Hin. discriminate.
    - now apply not_elem_of_empty in Hin. }
  split; [exact H1 | split; [exact H2 | split; [exact H3 |]]].
  exact (plain_upload_succeeds (mkFs ["srv"%string] ∅ ∅) _
           (mkUpload "bell_01.wav" new_bytes) H1 H2 H3).
Defined.

(** *** Uploads one after the other *)

(** The last upload under a name wins: after an upload under the same file
    name, a second upload succeeds and leaves exactly the file system and
    the answer it would have given alone. In particular, sending the same
    file twice changes nothing the second time. *)
Theorem last_upload_wins (fs fs1 fs2 : filesystem) (f g : UploadFile)
    (resp1 resp2 : json) :
  filename g = filename f ->
  upload_audio fs f = Ok (fs1, resp1) ->
  upload_audio fs g = Ok (fs2, resp2) ->
  upload_audio fs1 g = Ok (fs2, resp2).
Proof.
  intros Hname Hf Hg.
  assert (Hloc : file_location g = file_location f)
    by (unfold file_location; now rewrite Hname).
  unfold upload_audio in *. rewrite Hloc in *.
  apply bind_Ok in Hf as (a & Ha & Hf). apply bind_Ok in Hg as (b & Hb & Hg).
  apply open_wb_Ok in Ha as (p & Hp & ->).
  apply open_wb_Ok in Hb as (p' & Hp' & ->).
  assert (p' = p) by congruence. subst p'.
  inversion Hf; subst fs1 resp1; clear Hf.
  inversion Hg; subst fs2 resp2; clear Hg.
  unfold copyfileobj.
  rewrite (open_target_dirs
             fs (mkFs (cwd fs) (dirs fs) (<[p := []]> (files fs)))
             (file_location f) p eq_refl eq_refl Hp).
  cbn [files dirs cwd].
  set (fs1 := mkFs (cwd fs) (dirs fs)
                   (<[p := default [] (<[p := []]> (files fs) !! p) ++ file f]>
                      (<[p := []]> (files fs)))).
  assert (Hp1 : open_target fs1 (file_location f) = Ok p)
    by (apply (open_target_dirs fs fs1 _ p eq_refl eq_refl Hp)).
  unfold open_wb. rewrite Hp1. cbn [mbind result_bind].
  rewrite (open_target_dirs
             fs (mkFs (cwd fs1) (dirs fs1) (<[p := []]> (files fs1)))
             (file_location f) p eq_refl eq_refl Hp).
  subst fs1. cbn [files dirs cwd].
  rewrite !lookup_insert_eq. cbn [default app].
  rewrite !insert_insert_eq. reflexivity.
Qed.

Lemma last_upload_wins_witness :
  filename (mkUpload "../main.py" old_bytes) = filename traversal_upload /\
  exists fs1 fs2 resp1 resp2,
    upload_audio server_fs traversal_upload = Ok (fs1, resp1) /\
    upload_audio server_fs (mkUpload "../main.py" old_bytes)
    = Ok (fs2, resp2) /\
    upload_audio fs1 (mkUpload "../main.py" old_bytes) = Ok (fs2, resp2).
Proof.
  split; [reflexivity |].
  destruct (upload_audio server_fs traversal_upload)
    as [[fs1 resp1]|e] eqn:E1; [| vm_compute in E1; discriminate].
  destruct (upload_audio server_fs (mkUpload "../main.py" old_bytes))
    as [[fs2 resp2]|e] eqn:E2; [| vm_compute in E2; discriminate].
  exists fs1, fs2, resp1, resp2.
  split; [reflexivity | split; [reflexivity |]].
  exact (last_upload_wins server_fs fs1 fs2 traversal_upload
           (mkUpload "../main.py" old_bytes) resp1 resp2 eq_refl E1 E2).
Defined.

(** [os.makedirs(UPLOAD_DIR, exist_ok=True)] is called twice (lines 14
    and 40): the second call always succeeds and changes nothing, and no
    call touches a file. *)
Theorem makedirs_twice (fs fs0 : filesystem) (path : string) :
  makedirs_exist_ok fs path = Ok fs0 ->
  makedirs_exist_ok fs0 path = Ok fs0 /\
  files fs0 = files fs /\
  (cwd fs ++ [path] ∈ dirs fs0) /\ (dirs fs ⊆ dirs fs0).
Proof.
  intros H. apply makedirs_exist_ok_Ok in H as [-> Hnone].
  cbn [files dirs].
  split; [| split; [reflexivity | split;
                    [apply elem_of_union_l, elem_of_singleton; reflexivity
                    | apply union_subseteq_r]]].
  unfold makedirs_exist_ok. cbn [files dirs cwd]. rewrite Hnone.
  rewrite bool_decide_eq_false_2 by (intros [x Hx]; discriminate).
  f_equal. f_equal. now rewrite (assoc_L (∪)), (idemp_L (∪)).
Qed.

Lemma makedirs_twice_witness :
  makedirs_exist_ok server_fs UPLOAD_DIR
  = Ok (mkFs (cwd server_fs)
             ({[ cwd server_fs ++ [UPLOAD_DIR] ]} ∪ dirs server_fs)
             (files server_fs)) /\
  makedirs_exist_ok
    (mkFs (cwd server_fs)
          ({[ cwd server_fs ++ [UPLOAD_DIR] ]} ∪ dirs server_fs)
          (files server_fs))
    UPLOAD_DIR
  = Ok (mkFs (cwd server_fs)
             ({[ cwd server_fs ++ [UPLOAD_DIR] ]} ∪ dirs server_fs)
             (files server_fs)) /\
  files (mkFs (cwd server_fs)
              ({[ cwd server_fs ++ [UPLOAD_DIR] ]} ∪ dirs server_fs)
              (files server_fs))
  = files server_fs /\
  (cwd server_fs ++ [UPLOAD_DIR]
     ∈ dirs (mkFs (cwd server_fs)
                  ({[ cwd server_fs ++ [UPLOAD_DIR] ]} ∪ dirs server_fs)
                  (files server_fs))) /\
  (dirs server_fs
     ⊆ dirs (mkFs (cwd server_fs)
                  ({[ cwd server_fs ++ [UPLOAD_DIR] ]} ∪ dirs server_fs)
                  (files server_fs))).
Proof.
  assert (H : makedirs_exist_ok server_fs UPLOAD_DIR
              = Ok (mkFs (cwd server_fs)
                         ({[ cwd server_fs ++ [UPLOAD_DIR] ]} ∪ dirs server_fs)
                         (files server_fs))) by reflexivity.
  split; [exact H |].
  exact (makedirs_twice server_fs _ UPLOAD_DIR H).
Defined.
